(** * Compaction guard: a shallow embedding of
      [extensions/compaction-guard/index.ts] and its recovery properties.

    The plugin hooks three lifecycle points of the host agent
    ([before_compaction], [after_compaction], [before_agent_start]).  The
    development follows the source file top to bottom: JavaScript values and
    strings, the text extractor, the task-context summarizer, the context
    store, the recovery state and the three hook handlers.

    Conventions of the embedding.
    - A JavaScript string is a sequence of UTF-16 code units; [string] holds
      one [ascii] per code unit, so [String.length] is [.length] and
      [substring 0 n] is [.slice(0, n)].
    - Numbers that the source uses as counts and millisecond clocks are [Z].
    - The context store is taken at the resolved [contextPath]; how
      [resolveContextPath] picks that path plays no part below.
    - The file is written and read as UTF-8.  A string with an unpaired
      surrogate, which [slice] can leave where it cuts a passage, does not
      come back as it was written; the store carries that conversion as
      [utf8_text].
    - The host's logger is an external collaborator and is left out; every
      other effect of a handler (the module-level [state], the
      [needsRecovery] set, the file at [contextPath]) is explicit in
      [World].
    - A handler body is one atomic transition of [World]. *)

From Stdlib Require Import ZArith String Ascii List Bool Lia.
From stdpp Require Import base gmap strings pretty.
Import ListNotations.

Local Open Scope Z_scope.
#[local] Set Warnings "-register-all".

(** ** JavaScript values *)

(** The [unknown] values the handlers inspect.  An object keeps its own
    properties as an association list; the first binding of a key is the one
    a property read sees. *)
Inductive JsVal : Type :=
| JUndefined
| JNull
| JBool (b : bool)
| JNum (n : Z)
| JStr (s : string)
| JArr (elems : list JsVal)
| JObj (props : list (string * JsVal)).

Fixpoint assoc (k : string) (props : list (string * JsVal)) : JsVal :=
  match props with
  | [] => JUndefined
  | (k', v) :: rest => if String.eqb k k' then v else assoc k rest
  end.

(** [v.k] for the keys the source reads ([role], [content], [type],
    [text]): an array has none of them. *)
Definition get_prop (v : JsVal) (k : string) : JsVal :=
  match v with
  | JObj props => assoc k props
  | _ => JUndefined
  end.

(** [v && typeof v === "object"]: [null] is falsy, arrays are objects. *)
Definition is_object (v : JsVal) : bool :=
  match v with
  | JArr _ | JObj _ => true
  | _ => false
  end.

(** [typeof v === "string"], the string it then is, and [v === s] for a
    string literal [s]. *)
Definition is_string (v : JsVal) : bool :=
  match v with
  | JStr _ => true
  | _ => false
  end.

Definition as_string (v : JsVal) : string :=
  match v with
  | JStr s => s
  | _ => EmptyString
  end.

Definition str_is (v : JsVal) (s : string) : bool :=
  match v with
  | JStr r => String.eqb r s
  | _ => false
  end.

(** ** Strings *)

Definition nl : string := String "010"%char EmptyString.
Definition dquote : string := String "034"%char EmptyString.

(** Truthiness of a string: only the empty string is falsy. *)
Definition truthy (s : string) : bool :=
  match s with
  | EmptyString => false
  | String _ _ => true
  end.

(** [s.length > n ? s.slice(0, n) + "..." : s] *)
Definition truncate (n : nat) (s : string) : string :=
  if (n <? String.length s)%nat then substring 0 n s +:+ "..." else s.

(** [l.slice(-n)]: the last [n] elements, all of them when there are fewer. *)
Definition slice_last {A : Type} (n : nat) (l : list A) : list A :=
  drop (length l - n)%nat l.

(** Matching of literal patterns.  [prefix_by eqc p s] holds when [p]
    matches at the start of [s], code units compared with [eqc];
    [occurs_by] tries every start position. *)
Fixpoint prefix_by (eqc : ascii -> ascii -> bool) (p s : string) : bool :=
  match p, s with
  | EmptyString, _ => true
  | String _ _, EmptyString => false
  | String a p', String b s' => eqc a b && prefix_by eqc p' s'
  end.

Fixpoint occurs_by (eqc : ascii -> ascii -> bool) (p s : string) : bool :=
  prefix_by eqc p s ||
  match s with
  | EmptyString => false
  | String _ s' => occurs_by eqc p s'
  end.

(** Case folding of the [i] flag without the [u] flag: a code unit is
    compared through its upper case, and a pattern letter in ASCII is only
    matched by the two ASCII letters of that name. *)
Definition to_upper (c : ascii) : ascii :=
  let n := nat_of_ascii c in
  if ((97 <=? n) && (n <=? 122))%nat then ascii_of_nat (n - 32) else c.

Definition eq_ci (a b : ascii) : bool := Ascii.eqb (to_upper a) (to_upper b).

(** [s.includes(p)] *)
Definition includes (s p : string) : bool := occurs_by Ascii.eqb p s.

(** The specification-level reading of [includes]. *)
Definition contains (s p : string) : Prop :=
  exists pre post : string, s = pre +:+ p +:+ post.

(** ** Text extractor *)

(** The loop body of [extractTextContent]: push [rec.text] when the block is
    an object with [type === "text"] and a string [text]. *)
Definition push_text (textParts : list string) (block : JsVal) : list string :=
  if is_object block then
    if str_is (get_prop block "type") "text" && is_string (get_prop block "text")
    then textParts ++ [as_string (get_prop block "text")]
    else textParts
  else textParts.

Definition extractTextContent (content : JsVal) : option string :=
  match content with
  | JStr s => Some s
  | JArr blocks =>
      let textParts := fold_left push_text blocks [] in
      let joined := String.concat nl textParts in
      if truthy joined then Some joined else None
  | _ => None
  end.

(** ** Task-context summarizer *)

(** The alternatives of
    [/working on|creating|building|fixing|implementing|investigating/i]. *)
Definition task_indicators : list string :=
  ["working on"; "creating"; "building"; "fixing"; "implementing";
   "investigating"].

(** [regex.test(text)]: some alternative matches at some position. *)
Definition test_task_indicator (text : string) : bool :=
  existsb (fun kw => occurs_by eq_ci kw text) task_indicators.

(** The loop body of [extractTaskContext]. *)
Definition push_context (contextParts : list string) (msg : JsVal)
  : list string :=
  if negb (is_object msg) then contextParts
  else
    let role := get_prop msg "role" in
    let content := get_prop msg "content" in
    if str_is role "user" && is_string content then
      contextParts ++ ["User: " +:+ truncate 500 (as_string content)]
    else if str_is role "assistant" then
      match extractTextContent content with
      | Some text =>
          if truthy text && test_task_indicator text
          then contextParts ++ ["Assistant: " +:+ truncate 300 text]
          else contextParts
      | None => contextParts
      end
    else contextParts.

(** The three phases of [extractTaskContext]: the loop over the recent
    messages, the final [slice(-5).join], and the function itself. *)
Definition collect_context (recentMessages : list JsVal) : list string :=
  fold_left push_context recentMessages [].

Definition join_context (contextParts : list string) : option string :=
  match contextParts with
  | [] => None
  | _ :: _ => Some (String.concat (nl +:+ nl) (slice_last 5 contextParts))
  end.

Definition extractTaskContext (messages : JsVal) : option string :=
  match messages with
  | JArr ((_ :: _) as msgs) =>
      let recentMessages := slice_last 20 msgs in
      join_context (collect_context recentMessages)
  | _ => None
  end.

(** ** Effects: a state and exception monad

    An [async] function of the source is a computation that reads and
    updates its store [S] and either returns or throws; [await] is
    sequencing. *)

Inductive Errno : Type := ENOENT | EACCES.

Inductive Outcome (A : Type) : Type :=
| Returned (a : A)
| Thrown (e : Errno).
Arguments Returned {A} a.
Arguments Thrown {A} e.

Definition Task (S A : Type) : Type := S -> Outcome A * S.

Definition ret {S A : Type} (a : A) : Task S A := fun s => (Returned a, s).

Definition throw {S A : Type} (e : Errno) : Task S A := fun s => (Thrown e, s).

Definition bind {S A B : Type} (m : Task S A) (k : A -> Task S B) : Task S B :=
  fun s =>
    match m s with
    | (Returned a, s') => k a s'
    | (Thrown e, s') => (Thrown e, s')
    end.

(** [try { m } catch (err) { h err }] *)
Definition try_catch {S A : Type} (m : Task S A) (h : Errno -> Task S A)
  : Task S A :=
  fun s =>
    match m s with
    | (Returned a, s') => (Returned a, s')
    | (Thrown e, s') => h e s'
    end.

Definition gets {S A : Type} (f : S -> A) : Task S A := fun s => (Returned (f s), s).

Definition modify {S : Type} (f : S -> S) : Task S unit := fun s => (Returned tt, f s).

Notation "'let*' x ':=' m 'in' k" := (bind m (fun x => k))
  (at level 10, x name, m at level 100, k at level 200).
Notation "m ';;' k" := (bind m (fun _ => k))
  (at level 100, k at level 200, right associativity).

(** ** Context store

    The store is the single file at the resolved [contextPath].  [file] is
    its content when it exists, as the text a UTF-8 read returns; the four
    flags say whether the operating system grants the corresponding call on
    that path (permissions, a read-only volume and the like).

    [utf8_text s] is the text that a file holds after [s] was written to it
    as UTF-8: the encoder writes every unpaired surrogate of [s] as U+FFFD
    and everything else as it is, so [utf8_text s = s] exactly for the
    strings without an unpaired surrogate.  The code units of the embedding
    cannot spell a surrogate, so the conversion is not computed here; it is
    part of the store, and the properties that depend on the written text
    coming back unchanged say so through [survives_utf8]. *)

Record FileSys : Type := mkFileSys {
  file : option string;
  mkdir_ok : bool;
  write_ok : bool;
  read_ok : bool;
  unlink_ok : bool;
  utf8_text : string -> string
}.

Definition set_file (f : option string) (fs : FileSys) : FileSys :=
  {| file := f; mkdir_ok := mkdir_ok fs; write_ok := write_ok fs;
     read_ok := read_ok fs; unlink_ok := unlink_ok fs;
     utf8_text := utf8_text fs |}.

(** The text is one that a UTF-8 file gives back as it was written. *)
Definition survives_utf8 (fs : FileSys) (text : string) : Prop :=
  utf8_text fs text = text.

(** [fs.mkdir(path.dirname(contextPath), { recursive: true })] *)
Definition fs_mkdir : Task FileSys unit :=
  fun fs => if mkdir_ok fs then (Returned tt, fs) else (Thrown EACCES, fs).

(** [fs.writeFile(contextPath, content, "utf-8")] *)
Definition fs_writeFile (content : string) : Task FileSys unit :=
  fun fs =>
    if write_ok fs then (Returned tt, set_file (Some (utf8_text fs content)) fs)
    else (Thrown EACCES, fs).

(** [fs.readFile(contextPath, "utf-8")] *)
Definition fs_readFile : Task FileSys string :=
  fun fs =>
    match file fs with
    | None => (Thrown ENOENT, fs)
    | Some content =>
        if read_ok fs then (Returned content, fs) else (Thrown EACCES, fs)
    end.

(** [fs.unlink(contextPath)] *)
Definition fs_unlink : Task FileSys unit :=
  fun fs =>
    match file fs with
    | None => (Thrown ENOENT, fs)
    | Some _ =>
        if unlink_ok fs then (Returned tt, set_file None fs)
        else (Thrown EACCES, fs)
    end.

(** The template of [saveContext], line by line; [iso] is
    [new Date().toISOString()]. *)
Definition snapshot (iso context : string) (compactionCount : Z) : string :=
  String.concat nl
    [ "# Compaction Recovery Context";
      "";
      "*Auto-saved at: " +:+ iso +:+ "*";
      "*Compaction #" +:+ pretty compactionCount +:+ "*";
      "";
      "## Recent Activity";
      "";
      context;
      "";
      "---";
      "";
      "**Note:** This context was automatically saved before memory compaction.";
      "If you're reading this, compaction just ran. Review the above to understand";
      "what was happening before context was compressed.";
      "" ].

Definition saveContext (iso context : string) (compactionCount : Z)
  : Task FileSys unit :=
  let content := snapshot iso context compactionCount in
  fs_mkdir ;;
  fs_writeFile content.

Definition loadContext : Task FileSys (option string) :=
  try_catch
    (let* content := fs_readFile in
     ret (Some content))
    (fun _ => ret None).

Definition clearContext : Task FileSys unit :=
  try_catch fs_unlink (fun _ => ret tt).

(** ** Recovery state *)

(** The module-level [state] object. *)
Record State : Type := mkState {
  compactionJustHappened : bool;
  lastCompactionTime : Z;
  compactionCount : Z;
  savedContext : option string
}.

(** What a registered plugin instance can touch: [state], the
    [needsRecovery] set of its closure and the context file. *)
Record World : Type := mkWorld {
  state : State;
  needsRecovery : gset string;
  disk : FileSys
}.

Definition initial_state : State :=
  {| compactionJustHappened := false; lastCompactionTime := 0;
     compactionCount := 0; savedContext := None |}.

(** The world right after [register]. *)
Definition initial_world (fs : FileSys) : World :=
  {| state := initial_state; needsRecovery := ∅; disk := fs |}.

Definition with_state (f : State -> State) (w : World) : World :=
  {| state := f (state w); needsRecovery := needsRecovery w; disk := disk w |}.

Definition with_needsRecovery (f : gset string -> gset string) (w : World)
  : World :=
  {| state := state w; needsRecovery := f (needsRecovery w); disk := disk w |}.

(** Run a store operation on the world's disk. *)
Definition on_disk {A : Type} (m : Task FileSys A) : Task World A :=
  fun w =>
    let (r, fs') := m (disk w) in
    (r, {| state := state w; needsRecovery := needsRecovery w; disk := fs' |}).

(** [state.compactionCount++; state.compactionJustHappened = true;
     state.lastCompactionTime = Date.now()] *)
Definition mark_compaction (now : Z) (st : State) : State :=
  {| compactionJustHappened := true; lastCompactionTime := now;
     compactionCount := compactionCount st + 1;
     savedContext := savedContext st |}.

Definition set_savedContext (c : option string) (st : State) : State :=
  {| compactionJustHappened := compactionJustHappened st;
     lastCompactionTime := lastCompactionTime st;
     compactionCount := compactionCount st;
     savedContext := c |}.

Definition clear_compactionJustHappened (st : State) : State :=
  {| compactionJustHappened := false;
     lastCompactionTime := lastCompactionTime st;
     compactionCount := compactionCount st;
     savedContext := savedContext st |}.

(** ** Configuration and events *)

Record CompactionGuardConfig : Type := mkConfig {
  contextFile : option string;
  recoveryPrompt : option bool;
  minMessagesForSnapshot : option Z
}.

(** [config.minMessagesForSnapshot ?? 10] *)
Definition minMessages (config : CompactionGuardConfig) : Z :=
  default 10 (minMessagesForSnapshot config).

(** [config.recoveryPrompt !== false] *)
Definition injectRecovery (config : CompactionGuardConfig) : bool :=
  match recoveryPrompt config with
  | Some false => false
  | _ => true
  end.

Record CompactionEvent : Type := mkCompactionEvent {
  messageCount : option Z;
  messages : JsVal
}.

Record SessionEvent : Type := mkSessionEvent {
  sessionKey : option string
}.

Record AgentStartResult : Type := mkAgentStartResult {
  prependContext : string
}.

(** [event.sessionKey ?? "default"] *)
Definition session_of (event : SessionEvent) : string :=
  default "default" (sessionKey event).

(** The heading's warning sign is U+26A0 U+FE0F; it is kept as the bytes of
    its UTF-8 encoding. *)
Definition RECOVERY_PROMPT : string :=
  String.concat nl
    [ "## ⚠️ COMPACTION RECOVERY";
      "";
      "Memory compaction just ran. Your previous context was compressed.";
      "";
      "**What to do:**";
      "1. Check `memory/compaction-context.md` for saved task state";
      "2. Check `memory/session-context.md` for current task info";
      "3. If mid-task, review what you were doing and continue";
      "4. If unclear, ask: " +:+ dquote +:+
        "I think compaction just ran. What were we working on?" +:+ dquote;
      "";
      "**Do not** pretend you know what was happening if context is unclear." ].

(** ** The three hook handlers *)

Section Handlers.
Variable config : CompactionGuardConfig.

(** [now] is [Date.now()] and [iso] is [new Date().toISOString()] at the
    time of the call. *)
Definition before_compaction (now : Z) (iso : string)
    (event : CompactionEvent) : Task World unit :=
  let messageCount := default 0 (messageCount event) in
  if messageCount <? minMessages config then ret tt
  else
    modify (with_state (mark_compaction now)) ;;
    let messages := messages event in
    match messages with
    | JArr (_ :: _) =>
        match extractTaskContext messages with
        | Some context =>
            if truthy context then
              try_catch
                (let* count := gets (fun w => compactionCount (state w)) in
                 on_disk (saveContext iso context count) ;;
                 modify (with_state (set_savedContext (Some context))))
                (fun _ => ret tt)
            else ret tt
        | None => ret tt
        end
    | _ => ret tt
    end.

Definition after_compaction (event : SessionEvent) : Task World unit :=
  let sessionKey := session_of event in
  modify (with_needsRecovery (fun s => {[sessionKey]} ∪ s)).

(** The text appended to the static prompt when a snapshot was loaded. *)
Definition saved_context_section (savedContext : option string) : string :=
  match savedContext with
  | Some s =>
      if truthy s
      then nl +:+ nl +:+ "---" +:+ nl +:+ nl +:+ "**Saved Context:**"
             +:+ nl +:+ nl +:+ s
      else ""
  | None => ""
  end.

Definition before_agent_start (now : Z) (event : SessionEvent)
  : Task World (option AgentStartResult) :=
  let sessionKey := session_of event in
  let* pending := gets (fun w => bool_decide (sessionKey ∈ needsRecovery w)) in
  let* st := gets state in
  let timeSinceCompaction := now - lastCompactionTime st in
  if negb pending
     && ((60000 <? timeSinceCompaction) || negb (compactionJustHappened st))
  then ret None
  else
    modify (with_needsRecovery (fun s => s ∖ {[sessionKey]})) ;;
    modify (with_state clear_compactionJustHappened) ;;
    if negb (injectRecovery config) then ret None
    else
      let* savedContext := on_disk loadContext in
      let recoveryContent :=
        RECOVERY_PROMPT +:+ saved_context_section savedContext in
      ret (Some {| prependContext := recoveryContent |}).

End Handlers.

(** ** Runs of the plugin *)

(** One invocation of a hook by the host, with what the handler reads from
    its environment. *)
Inductive HookCall : Type :=
| BeforeCompaction (now : Z) (iso : string) (event : CompactionEvent)
| AfterCompaction (event : SessionEvent)
| BeforeAgentStart (now : Z) (event : SessionEvent).

Definition dispatch (config : CompactionGuardConfig) (w : World) (h : HookCall)
  : World :=
  match h with
  | BeforeCompaction now iso event => snd (before_compaction config now iso event w)
  | AfterCompaction event => snd (after_compaction event w)
  | BeforeAgentStart now event => snd (before_agent_start config now event w)
  end.

Definition run (config : CompactionGuardConfig) (hs : list HookCall) (w : World)
  : World :=
  fold_left (dispatch config) hs w.

(** A compaction qualifies when its message count passes the gate. *)
Definition qualifies (config : CompactionGuardConfig) (event : CompactionEvent)
  : bool :=
  negb (default 0 (messageCount event) <? minMessages config).

Definition qualifying_call (config : CompactionGuardConfig) (h : HookCall)
  : option Z :=
  match h with
  | BeforeCompaction now _ event =>
      if qualifies config event then Some now else None
  | _ => None
  end.

(** The clock readings of the qualifying compactions of a run, in order. *)
Definition qualifying_times (config : CompactionGuardConfig)
    (hs : list HookCall) : list Z :=
  omap (qualifying_call config) hs.

Definition is_agent_start (h : HookCall) : bool :=
  match h with
  | BeforeAgentStart _ _ => true
  | _ => false
  end.

(** ** Specification-level views *)

(** The payload of a content block that is an object tagged [text] with a
    string payload. *)
Definition text_payload (block : JsVal) : option string :=
  match block with
  | JObj props =>
      match assoc "type" props, assoc "text" props with
      | JStr ty, JStr t => if String.eqb ty "text" then Some t else None
      | _, _ => None
      end
  | _ => None
  end.

Definition is_array (v : JsVal) : bool :=
  match v with
  | JArr _ => true
  | _ => false
  end.

(** A user message whose content is a sequence of content blocks. *)
Definition user_with_blocks (msg : JsVal) : bool :=
  str_is (get_prop msg "role") "user" && is_array (get_prop msg "content").

(** The passages the digest of a history is joined from. *)
Definition digest_parts (msgs : list JsVal) : list string :=
  slice_last 5 (collect_context (slice_last 20 msgs)).

(** The world after a proceeding [before_agent_start]: the session's
    pending entry and the process-wide flag are cleared. *)
Definition consumed (event : SessionEvent) (w : World) : World :=
  {| state := clear_compactionJustHappened (state w);
     needsRecovery := needsRecovery w ∖ {[session_of event]};
     disk := disk w |}.

(** The payload of a proceeding [before_agent_start] that injects. *)
Definition recovery_payload (fs : FileSys) : AgentStartResult :=
  {| prependContext :=
       RECOVERY_PROMPT +:+
       saved_context_section (if read_ok fs then file fs else None) |}.

(** A session that owes no injection while the process-wide flag is down. *)
Definition settled (event : SessionEvent) (w : World) : Prop :=
  (session_of event ∉ needsRecovery w)
  /\ compactionJustHappened (state w) = false.

(** The operating system grants the same calls on both disks, and both
    hold text the same way. *)
Definition same_grants (fs fs' : FileSys) : Prop :=
  mkdir_ok fs' = mkdir_ok fs /\ write_ok fs' = write_ok fs
  /\ read_ok fs' = read_ok fs /\ unlink_ok fs' = unlink_ok fs
  /\ utf8_text fs' = utf8_text fs.

(** A user message with the plain-string content [c]. *)
Definition says_user (msg : JsVal) (c : string) : Prop :=
  get_prop msg "role" = JStr "user" /\ get_prop msg "content" = JStr c.

(** An assistant message whose extracted text [text] matches a task
    indicator. *)
Definition says_task (msg : JsVal) (text : string) : Prop :=
  get_prop msg "role" = JStr "assistant"
  /\ extractTextContent (get_prop msg "content") = Some text
  /\ test_task_indicator text = true.

(** The counter line of a snapshot. *)
Definition counter_line (n : Z) : string :=
  "*Compaction #" +:+ pretty n +:+ "*".

(** ** Sample inputs *)

Definition user_msg (c : string) : JsVal :=
  JObj [("role", JStr "user"); ("content", JStr c)].

Definition assistant_msg (c : string) : JsVal :=
  JObj [("role", JStr "assistant"); ("content", JStr c)].

Definition text_block (t : string) : JsVal :=
  JObj [("type", JStr "text"); ("text", JStr t)].

Definition default_config : CompactionGuardConfig :=
  {| contextFile := None; recoveryPrompt := None;
     minMessagesForSnapshot := None |}.

Definition quiet_config : CompactionGuardConfig :=
  {| contextFile := None; recoveryPrompt := Some false;
     minMessagesForSnapshot := None |}.

(** A disk with no context file on which every call is granted.  The
    sample texts have no surrogate, so the sample disks return them as
    written. *)
Definition empty_disk : FileSys :=
  {| file := None; mkdir_ok := true; write_ok := true; read_ok := true;
     unlink_ok := true; utf8_text := fun text => text |}.

(** A readable context file in a directory that does not allow removing
    entries. *)
Definition pinned_disk : FileSys :=
  {| file := Some "old snapshot"; mkdir_ok := true; write_ok := true;
     read_ok := true; unlink_ok := false; utf8_text := fun text => text |}.

(** A task, its acknowledgement and eight assistant messages without a
    task indicator. *)
Definition login_history : list JsVal :=
  [ user_msg "Fix the login bug";
    assistant_msg "I'm investigating the login bug now";
    assistant_msg "Reading auth.ts."; assistant_msg "Reading session.ts.";
    assistant_msg "The token check looks wrong."; assistant_msg "Patched.";
    assistant_msg "Tests pass."; assistant_msg "Login succeeds again.";
    assistant_msg "Anything else?"; assistant_msg "Done." ].

(** The same task followed by eight short user messages. *)
Definition crowded_history : list JsVal :=
  [ user_msg "Fix the login bug";
    assistant_msg "I'm investigating the login bug now";
    user_msg "a"; user_msg "b"; user_msg "c"; user_msg "d";
    user_msg "e"; user_msg "f"; user_msg "g"; user_msg "h" ].

Definition session (k : string) : SessionEvent := {| sessionKey := Some k |}.

Definition compaction_of (n : Z) (msgs : list JsVal) : CompactionEvent :=
  {| messageCount := Some n; messages := JArr msgs |}.

Definition sample_iso : string := "2026-01-01T00:00:00.000Z".

(** ** Further definitions: path resolution, case folding, run predicates *)

(** [s.slice(n)]: [s] without its first [n] code units. *)
Fixpoint slice_from (n : nat) (s : string) : string :=
  match n, s with
  | O, _ => s
  | S _, EmptyString => EmptyString
  | S n', String _ s' => slice_from n' s'
  end.

(** [resolveContextPath].  Node's [path.join] and [path.isAbsolute], the
    home directory [os.homedir()] and the environment variable
    [process.env.OPENCLAW_WORKSPACE] belong to the platform and are taken as
    given. *)
Section ContextPath.
Variable path_join : list string -> string.
Variable path_isAbsolute : string -> bool.
Variable homedir : string.
Variable OPENCLAW_WORKSPACE : option string.

Definition resolveContextPath (config : CompactionGuardConfig) : string :=
  let workspace :=
    default (path_join [homedir; ".openclaw/workspace"]) OPENCLAW_WORKSPACE in
  let defaultPath := path_join [workspace; "memory"; "compaction-context.md"] in
  match contextFile config with
  | None => defaultPath
  | Some contextFile =>
      if negb (truthy contextFile) then defaultPath
      else if String.prefix "~/" contextFile then
        path_join [homedir; slice_from 2 contextFile]
      else if path_isAbsolute contextFile then contextFile
      else path_join [workspace; contextFile]
  end.

End ContextPath.

(** A string with every code unit folded as the [i] flag folds it. *)
Fixpoint upcase (s : string) : string :=
  match s with
  | EmptyString => EmptyString
  | String c s' => String (to_upper c) (upcase s')
  end.

(** The hook call is a [before_agent_start] of session [k]. *)
Definition starts_session (k : string) (h : HookCall) : bool :=
  match h with
  | BeforeAgentStart _ event => String.eqb (session_of event) k
  | _ => false
  end.

(** The hook call is an [after_compaction] of session [k]. *)
Definition marks_session (k : string) (h : HookCall) : bool :=
  match h with
  | AfterCompaction event => String.eqb (session_of event) k
  | _ => false
  end.

(** The world right after the marking of a qualifying [before_compaction]
    that saves nothing. *)
Definition marked (now : Z) (w : World) : World :=
  with_state (mark_compaction now) w.

(** A context file that may be read but neither created nor overwritten. *)
Definition locked_disk : FileSys :=
  {| file := Some "old snapshot"; mkdir_ok := true; write_ok := false;
     read_ok := true; unlink_ok := true; utf8_text := fun text => text |}.

Definition keyless : SessionEvent := {| sessionKey := None |}.

(** Twenty-five messages: five old user messages and twenty recent
    assistant messages, one of which names a task. *)
Definition long_history : list JsVal :=
  replicate 5 (user_msg "old request")
  ++ [assistant_msg "Now fixing the parser"]
  ++ replicate 19 (assistant_msg "ok").

(** * Properties *)

(** ** Strings and lists *)

Lemma append_nil (b : string) : "" +:+ b = b.
Proof. reflexivity. Qed.

Lemma append_cons (c : ascii) (a b : string) :
  String c a +:+ b = String c (a +:+ b).
Proof. reflexivity. Qed.

Lemma length_append (a b : string) :
  String.length (a +:+ b) = (String.length a + String.length b)%nat.
Proof.
  induction a as [|c a IH]; [reflexivity|].
  rewrite append_cons. simpl. now rewrite IH.
Qed.

Lemma append_assoc (a b c : string) : (a +:+ b) +:+ c = a +:+ (b +:+ c).
Proof.
  induction a as [|x a IH]; [reflexivity|].
  rewrite !append_cons. now rewrite IH.
Qed.

Lemma append_empty_r (a : string) : a +:+ "" = a.
Proof.
  induction a as [|x a IH]; [reflexivity|].
  rewrite append_cons. now rewrite IH.
Qed.

Lemma length_substring_0 (n : nat) (s : string) :
  (String.length (substring 0 n s) <= n)%nat.
Proof.
  revert s; induction n as [|n IH]; intros [|c s]; simpl; try lia.
  specialize (IH s); lia.
Qed.

Lemma truncate_length (n : nat) (s : string) :
  (String.length (truncate n s) <= n + 3)%nat.
Proof.
  unfold truncate. destruct (Nat.ltb_spec n (String.length s)) as [Hlt|Hge].
  - rewrite length_append. pose proof (length_substring_0 n s). simpl. lia.
  - lia.
Qed.

Lemma truncate_short (n : nat) (s : string) :
  (String.length s <= n)%nat -> truncate n s = s.
Proof.
  intros H. unfold truncate.
  destruct (Nat.ltb_spec n (String.length s)); [lia | reflexivity].
Qed.

Lemma truthy_append_r (a b : string) : truthy b = true -> truthy (a +:+ b) = true.
Proof. destruct a; [now rewrite append_nil | reflexivity]. Qed.

Lemma truthy_false (s : string) : truthy s = false -> s = "".
Proof. destruct s; simpl; [reflexivity | discriminate]. Qed.

Lemma In_slice_last {A : Type} (n : nat) (l : list A) (x : A) :
  In x (slice_last n l) -> In x l.
Proof.
  unfold slice_last. generalize (length l - n)%nat as k.
  intros k; revert l; induction k as [|k IH]; intros [|y l]; simpl; auto.
Qed.

Lemma slice_last_all {A : Type} (n : nat) (l : list A) :
  (length l <= n)%nat -> slice_last n l = l.
Proof.
  intros H. unfold slice_last.
  replace (length l - n)%nat with 0%nat by lia. reflexivity.
Qed.

(** ** The text extractor keeps the text payloads *)

Lemma push_text_payload (textParts : list string) (block : JsVal) :
  push_text textParts block =
  textParts ++ match text_payload block with Some t => [t] | None => [] end.
Proof.
  unfold push_text, text_payload.
  destruct block as [| | b | n | s | elems | props]; simpl;
    try (now rewrite app_nil_r).
  destruct (assoc "type" props) as [| | b | n | ty | elems | ps]; simpl;
    try (now rewrite app_nil_r).
  destruct (String.eqb ty "text"); simpl;
    destruct (assoc "text" props); simpl; now rewrite ?app_nil_r.
Qed.

Lemma fold_push_text (blocks : list JsVal) (acc : list string) :
  fold_left push_text blocks acc = acc ++ omap text_payload blocks.
Proof.
  revert acc; induction blocks as [|b blocks IH]; intros acc; simpl.
  - now rewrite app_nil_r.
  - rewrite IH, push_text_payload.
    destruct (text_payload b); simpl; now rewrite <- app_assoc.
Qed.

Lemma truthy_concat_nl (x y : string) (rest : list string) :
  truthy (String.concat nl (x :: y :: rest)) = true.
Proof.
  change (String.concat nl (x :: y :: rest))
    with (x +:+ nl +:+ String.concat nl (y :: rest)).
  apply truthy_append_r. reflexivity.
Qed.

(** C7, as the code has it: for every sequence, the extractor keeps exactly
    the payloads of the elements that are objects tagged [text] with a
    string payload, in their original order; it returns them joined with
    newlines when that join is not the empty string, and absent when it is
    (no text block, or a single text block with the empty payload). *)
Theorem extractTextContent_array (blocks : list JsVal) :
  extractTextContent (JArr blocks) =
  match omap text_payload blocks with
  | [] | [EmptyString] => None
  | payloads => Some (String.concat nl payloads)
  end.
Proof.
  unfold extractTextContent. rewrite fold_push_text. simpl.
  destruct (omap text_payload blocks) as [|x [|y rest]].
  - reflexivity.
  - destruct x; reflexivity.
  - rewrite truthy_concat_nl. destruct x; reflexivity.
Qed.

(** C7, as stated, fails on a sequence whose only text block has the empty
    payload: the block is kept, yet the extractor answers absent instead of
    the joined payloads. *)
Lemma extractTextContent_empty_payload :
  text_payload (text_block "") = Some "" /\
  extractTextContent (JArr [text_block ""]) = None /\
  extractTextContent (JArr [text_block ""]) <>
    Some (String.concat nl (omap text_payload [text_block ""])).
Proof. repeat split; discriminate. Qed.

(** ** The summarizer's loop *)

Lemma push_context_app (contextParts : list string) (msg : JsVal) :
  push_context contextParts msg = contextParts ++ push_context [] msg.
Proof.
  unfold push_context.
  destruct (negb (is_object msg)); [now rewrite app_nil_r|].
  destruct (str_is (get_prop msg "role") "user"
            && is_string (get_prop msg "content")); [reflexivity|].
  destruct (str_is (get_prop msg "role") "assistant"); [|now rewrite app_nil_r].
  destruct (extractTextContent (get_prop msg "content")) as [text|];
    [|now rewrite app_nil_r].
  destruct (truthy text && test_task_indicator text);
    [reflexivity | now rewrite app_nil_r].
Qed.

Lemma fold_push_context (msgs : list JsVal) (acc : list string) :
  fold_left push_context msgs acc = acc ++ flat_map (push_context []) msgs.
Proof.
  revert acc; induction msgs as [|m msgs IH]; intros acc; simpl.
  - now rewrite app_nil_r.
  - rewrite IH, (push_context_app acc m). now rewrite <- app_assoc.
Qed.

Lemma collect_context_flat (msgs : list JsVal) :
  collect_context msgs = flat_map (push_context []) msgs.
Proof. unfold collect_context. now rewrite fold_push_context. Qed.

Lemma push_context_shape (msg : JsVal) (p : string) :
  In p (push_context [] msg) ->
  (exists t, p = "User: " +:+ t /\ (String.length t <= 503)%nat) \/
  (exists t, p = "Assistant: " +:+ t /\ (String.length t <= 303)%nat).
Proof.
  unfold push_context.
  destruct (negb (is_object msg)); [intros []|].
  destruct (str_is (get_prop msg "role") "user"
            && is_string (get_prop msg "content")).
  - intros [<-|[]]. left. eexists; split; [reflexivity|].
    apply (truncate_length 500).
  - destruct (str_is (get_prop msg "role") "assistant"); [|intros []].
    destruct (extractTextContent (get_prop msg "content")) as [text|];
      [|intros []].
    destruct (truthy text && test_task_indicator text); [|intros []].
    intros [<-|[]]. right. eexists; split; [reflexivity|].
    apply (truncate_length 300).
Qed.

(** A digest is its passages joined by a blank line. *)
Lemma digest_is_joined_parts (msgs : list JsVal) (d : string) :
  extractTaskContext (JArr msgs) = Some d ->
  d = String.concat (nl +:+ nl) (digest_parts msgs).
Proof.
  destruct msgs as [|m msgs]; [discriminate|].
  unfold extractTaskContext, join_context, digest_parts. cbv zeta.
  destruct (collect_context (slice_last 20 (m :: msgs))); [discriminate|].
  now intros [= <-].
Qed.

(** C3: every passage a digest is joined from is a user passage of at most
    503 characters behind its label, or an assistant passage of at most 303
    characters behind its label, the ellipsis marker included. *)
Theorem truncation_law (msgs : list JsVal) (p : string) :
  In p (digest_parts msgs) ->
  (exists t, p = "User: " +:+ t /\ (String.length t <= 503)%nat) \/
  (exists t, p = "Assistant: " +:+ t /\ (String.length t <= 303)%nat).
Proof.
  unfold digest_parts. intros Hin.
  apply In_slice_last in Hin. rewrite collect_context_flat in Hin.
  apply in_flat_map in Hin as (m & _ & Hp).
  now apply push_context_shape with (msg := m).
Qed.

Lemma truncation_law_witness :
  In "User: Fix the login bug" (digest_parts login_history) /\
  ((exists t, "User: Fix the login bug" = "User: " +:+ t
              /\ (String.length t <= 503)%nat) \/
   (exists t, "User: Fix the login bug" = "Assistant: " +:+ t
              /\ (String.length t <= 303)%nat)).
Proof.
  split.
  - vm_compute. left. reflexivity.
  - apply (truncation_law login_history). vm_compute. left. reflexivity.
Defined.

(** ** User messages with block content *)

Lemma user_not_assistant (role : JsVal) :
  str_is role "user" = true -> str_is role "assistant" = false.
Proof.
  destruct role; simpl; try discriminate.
  intros H. apply String.eqb_eq in H. subst. reflexivity.
Qed.

Lemma push_context_user_non_string (msg : JsVal) (parts : list string) :
  str_is (get_prop msg "role") "user" = true ->
  is_string (get_prop msg "content") = false ->
  push_context parts msg = parts.
Proof.
  intros Hrole Hcontent. unfold push_context.
  rewrite Hrole, Hcontent, (user_not_assistant _ Hrole). simpl.
  now destruct (negb (is_object msg)).
Qed.

Lemma user_with_blocks_silent (msg : JsVal) :
  user_with_blocks msg = true -> push_context [] msg = [].
Proof.
  unfold user_with_blocks. intros H. apply andb_prop in H as [Hrole Harr].
  apply push_context_user_non_string; [assumption|].
  now destruct (get_prop msg "content").
Qed.

Lemma flat_map_filter_silent (keep : JsVal -> bool) (msgs : list JsVal) :
  (forall m, keep m = false -> push_context [] m = []) ->
  flat_map (push_context []) (List.filter keep msgs) =
  flat_map (push_context []) msgs.
Proof.
  intros Hsilent. induction msgs as [|m msgs IH]; simpl; [reflexivity|].
  destruct (keep m) eqn:Hk; simpl.
  - now rewrite IH.
  - now rewrite IH, (Hsilent m Hk).
Qed.

(** C9: a user message whose content is not a plain string, a sequence of
    content blocks in particular, adds nothing to the digest: the digest of
    a history is the digest of its recent messages with those user messages
    taken out, and the loop leaves the passages as they are at any user
    message without string content. *)
Theorem user_block_content_excluded (msgs : list JsVal) :
  extractTaskContext (JArr msgs) =
    join_context
      (collect_context
         (List.filter (fun m => negb (user_with_blocks m)) (slice_last 20 msgs)))
  /\ (forall (m : JsVal) (parts : list string),
        str_is (get_prop m "role") "user" = true ->
        is_string (get_prop m "content") = false ->
        push_context parts m = parts).
Proof.
  split; [|intros m parts; apply push_context_user_non_string].
  rewrite !collect_context_flat, flat_map_filter_silent.
  - destruct msgs as [|m msgs]; [reflexivity|].
    unfold extractTaskContext. now rewrite collect_context_flat.
  - intros m Hm. apply user_with_blocks_silent.
    now destruct (user_with_blocks m).
Qed.

Example user_blocks_dropped :
  extractTaskContext
    (JArr [JObj [("role", JStr "user");
                 ("content", JArr [text_block "Fix the login bug"])]]) = None.
Proof. reflexivity. Qed.

(** ** The context store *)

Lemma loadContext_returns (fs : FileSys) :
  loadContext fs = (Returned (if read_ok fs then file fs else None), fs).
Proof.
  unfold loadContext, try_catch, bind, fs_readFile, ret.
  destruct (file fs) as [content|]; destruct (read_ok fs); reflexivity.
Qed.

Lemma clearContext_returns (fs : FileSys) :
  clearContext fs =
  (Returned tt, if unlink_ok fs then set_file None fs else fs).
Proof.
  unfold clearContext, try_catch, fs_unlink, ret, set_file.
  destruct fs as [[content|] mk wr rd []]; reflexivity.
Qed.

Lemma saveContext_granted (iso context : string) (count : Z) (fs : FileSys) :
  mkdir_ok fs = true -> write_ok fs = true ->
  saveContext iso context count fs =
  (Returned tt,
   set_file (Some (utf8_text fs (snapshot iso context count))) fs).
Proof.
  intros Hmk Hwr. unfold saveContext, bind, fs_mkdir, fs_writeFile.
  now rewrite Hmk, Hwr.
Qed.

(** C8, as the code has it: [clear()] never fails, whatever the state of the
    file system and however often it is called, and [load()] after
    [clear()] returns absent exactly when the file was not there, could be
    removed, or cannot be read; a file that cannot be removed stays and is
    loaded. *)
Theorem clear_then_load (fs : FileSys) :
  (exists fs', (clearContext ;; clearContext) fs = (Returned tt, fs')) /\
  (fst ((clearContext ;; loadContext) fs) = Returned None <->
   file fs = None \/ unlink_ok fs = true \/ read_ok fs = false) /\
  (file fs <> None -> unlink_ok fs = false -> read_ok fs = true ->
   fst ((clearContext ;; loadContext) fs) = Returned (file fs)).
Proof.
  unfold bind. rewrite !clearContext_returns.
  split; [|split].
  - simpl. rewrite ?clearContext_returns. eauto.
  - rewrite loadContext_returns.
    destruct fs as [[content|] mk wr [] []]; simpl; split; intros H;
      try reflexivity; try discriminate; auto.
    destruct H as [H|[H|H]]; discriminate.
  - intros Hfile Hun Hrd. rewrite loadContext_returns, Hun. simpl.
    now rewrite Hrd.
Qed.

(** C8, as stated, fails on a readable context file that the operating
    system does not let the process remove: [clear()] swallows the error,
    the file stays, and [load()] returns it. *)
Lemma clear_keeps_pinned_file :
  fst (clearContext pinned_disk) = Returned tt /\
  fst ((clearContext ;; loadContext) pinned_disk) = Returned (Some "old snapshot") /\
  fst ((clearContext ;; loadContext) pinned_disk) <> Returned None.
Proof. repeat split; discriminate. Qed.

(** ** The gate of [before_compaction] *)

Lemma before_compaction_skips (config : CompactionGuardConfig) (now : Z)
    (iso : string) (event : CompactionEvent) (w : World) :
  qualifies config event = false ->
  before_compaction config now iso event w = (Returned tt, w).
Proof.
  unfold qualifies, before_compaction. intros H.
  apply negb_false_iff in H. now rewrite H.
Qed.

(** C4: a [before_compaction] whose message count is below the configured
    minimum returns with the world as it was: the file, the compaction
    counter, the recovery flags and the pending set are all unchanged. *)
Theorem small_history_untouched (config : CompactionGuardConfig) (now : Z)
    (iso : string) (event : CompactionEvent) (w : World) (n : Z) :
  messageCount event = Some n ->
  n < minMessages config ->
  before_compaction config now iso event w = (Returned tt, w).
Proof.
  intros Hn Hlt. apply before_compaction_skips. unfold qualifies.
  rewrite Hn. simpl. apply negb_false_iff. now apply Z.ltb_lt.
Qed.

Lemma small_history_untouched_witness :
  minMessages default_config = 10 /\
  before_compaction default_config 1000 sample_iso
    (compaction_of 5 login_history) (initial_world empty_disk)
  = (Returned tt, initial_world empty_disk).
Proof.
  split; [reflexivity|].
  apply (small_history_untouched default_config 1000 sample_iso
           (compaction_of 5 login_history) (initial_world empty_disk) 5).
  - reflexivity.
  - reflexivity.
Defined.

(** C10: an event without [messageCount] is handled as one whose count is
    0, so under a positive minimum the handler returns with the world as it
    was, whatever the event's [messages] hold. *)
Theorem missing_count_is_zero (config : CompactionGuardConfig) (now : Z)
    (iso : string) (event : CompactionEvent) (w : World) :
  messageCount event = None ->
  before_compaction config now iso event w =
    before_compaction config now iso
      {| messageCount := Some 0; messages := messages event |} w
  /\ (0 < minMessages config ->
      before_compaction config now iso event w = (Returned tt, w)).
Proof.
  intros Hnone. split.
  - unfold before_compaction. rewrite Hnone. reflexivity.
  - intros Hpos. apply before_compaction_skips. unfold qualifies.
    rewrite Hnone. simpl. apply negb_false_iff. now apply Z.ltb_lt.
Qed.

Lemma missing_count_is_zero_witness :
  before_compaction default_config 1000 sample_iso
    {| messageCount := None; messages := JArr login_history |}
    (initial_world empty_disk)
  = (Returned tt, initial_world empty_disk).
Proof.
  apply (missing_count_is_zero default_config 1000 sample_iso
           {| messageCount := None; messages := JArr login_history |}
           (initial_world empty_disk)).
  - reflexivity.
  - reflexivity.
Defined.

(** ** [before_agent_start] *)

Lemma before_agent_start_skips (config : CompactionGuardConfig) (now : Z)
    (event : SessionEvent) (w : World) :
  session_of event ∉ needsRecovery w ->
  60000 < now - lastCompactionTime (state w)
  \/ compactionJustHappened (state w) = false ->
  before_agent_start config now event w = (Returned None, w).
Proof.
  intros Hnot Hstale. unfold before_agent_start, bind, gets.
  rewrite bool_decide_eq_false_2 by assumption. simpl.
  destruct Hstale as [Hlate|Hflag].
  - apply Z.ltb_lt in Hlate. now rewrite Hlate.
  - rewrite Hflag. now rewrite orb_true_r.
Qed.

Lemma before_agent_start_proceeds (config : CompactionGuardConfig) (now : Z)
    (event : SessionEvent) (w : World) :
  session_of event ∈ needsRecovery w
  \/ (compactionJustHappened (state w) = true
      /\ now - lastCompactionTime (state w) <= 60000) ->
  before_agent_start config now event w =
  (Returned (if injectRecovery config then Some (recovery_payload (disk w))
             else None),
   consumed event w).
Proof.
  intros Hgo. unfold before_agent_start, bind, gets.
  assert (negb (bool_decide (session_of event ∈ needsRecovery w))
          && ((60000 <? now - lastCompactionTime (state w))
              || negb (compactionJustHappened (state w))) = false) as ->.
  { destruct Hgo as [Hin|[Hflag Hfresh]].
    - now rewrite bool_decide_eq_true_2.
    - rewrite Hflag. apply Z.ltb_ge in Hfresh. rewrite Hfresh.
      apply andb_false_r. }
  unfold modify, on_disk, ret. simpl.
  destruct (injectRecovery config); simpl; [|reflexivity].
  rewrite loadContext_returns. reflexivity.
Qed.

Lemma consumed_not_pending (event : SessionEvent) (w : World) :
  session_of event ∉ needsRecovery (consumed event w).
Proof.
  simpl. intros Hin. apply elem_of_difference in Hin as [_ Hout].
  apply Hout. now apply elem_of_singleton.
Qed.

(** C6: when [before_agent_start] proceeds (the session is pending, or the
    flag is set and at most 60 seconds have passed) and [recoveryPrompt] is
    disabled, the hook returns nothing, yet the session's pending entry and
    [compactionJustHappened] are cleared; nothing else changes. *)
Theorem quiet_recovery_consumes (config : CompactionGuardConfig) (now : Z)
    (event : SessionEvent) (w : World) :
  recoveryPrompt config = Some false ->
  session_of event ∈ needsRecovery w
  \/ (compactionJustHappened (state w) = true
      /\ now - lastCompactionTime (state w) <= 60000) ->
  let r := before_agent_start config now event w in
  fst r = Returned None
  /\ (session_of event ∉ needsRecovery (snd r))
  /\ compactionJustHappened (state (snd r)) = false
  /\ snd r = consumed event w.
Proof.
  intros Hoff Hgo. simpl.
  rewrite (before_agent_start_proceeds config now event w Hgo).
  unfold injectRecovery. rewrite Hoff. simpl.
  repeat split; try reflexivity. apply consumed_not_pending.
Qed.

Lemma quiet_recovery_consumes_witness :
  let w := snd (after_compaction (session "s1") (initial_world empty_disk)) in
  let r := before_agent_start quiet_config 5000 (session "s1") w in
  fst r = Returned None
  /\ (session_of (session "s1") ∉ needsRecovery (snd r))
  /\ compactionJustHappened (state (snd r)) = false
  /\ snd r = consumed (session "s1") w.
Proof.
  apply (quiet_recovery_consumes quiet_config 5000 (session "s1")
           (snd (after_compaction (session "s1") (initial_world empty_disk)))).
  - reflexivity.
  - left. apply elem_of_union_l, elem_of_singleton. reflexivity.
Defined.

(** ** Recovery is injected once *)

Lemma agent_start_keeps_settled (config : CompactionGuardConfig) (now : Z)
    (other event : SessionEvent) (w : World) :
  settled event w ->
  settled event (snd (before_agent_start config now other w)).
Proof.
  intros [Hnot Hflag].
  destruct (decide (session_of other ∈ needsRecovery w)) as [Hin|Hout].
  - rewrite before_agent_start_proceeds by (now left). simpl. split.
    + simpl. intros H. apply elem_of_difference in H as [H _]. now apply Hnot.
    + reflexivity.
  - rewrite before_agent_start_skips by auto. now split.
Qed.

Lemma run_app (config : CompactionGuardConfig) (hs hs' : list HookCall)
    (w : World) :
  run config (hs ++ hs') w = run config hs' (run config hs w).
Proof. unfold run. apply fold_left_app. Qed.

Lemma agent_starts_keep_settled (config : CompactionGuardConfig)
    (hs : list HookCall) (event : SessionEvent) (w : World) :
  forallb is_agent_start hs = true ->
  settled event w -> settled event (run config hs w).
Proof.
  revert w. induction hs as [|h hs IH]; intros w Hall Hw; [assumption|].
  simpl in Hall. apply andb_prop in Hall as [Hh Hhs].
  destruct h as [now iso e|e|now e]; try discriminate.
  apply (IH _ Hhs). simpl. now apply agent_start_keeps_settled.
Qed.

(** C1: with [recoveryPrompt] enabled, the [before_agent_start] of a session
    right after its [after_compaction] returns the recovery payload; the
    next [before_agent_start] of that session, with no compaction event in
    between (only agent starts of any session, possibly none), returns
    nothing and changes nothing. *)
Theorem recovery_once (config : CompactionGuardConfig) (w : World)
    (event : SessionEvent) (now1 now2 : Z) (hs : list HookCall) :
  injectRecovery config = true ->
  forallb is_agent_start hs = true ->
  let w1 := snd (after_compaction event w) in
  let r1 := before_agent_start config now1 event w1 in
  let w2 := run config hs (snd r1) in
  fst r1 = Returned (Some (recovery_payload (disk w)))
  /\ before_agent_start config now2 event w2 = (Returned None, w2).
Proof.
  intros Hinject Hstarts. cbv zeta.
  assert (session_of event
          ∈ needsRecovery (snd (after_compaction event w))) as Hpending.
  { simpl. apply elem_of_union_l. now apply elem_of_singleton. }
  rewrite (before_agent_start_proceeds config now1 event _ (or_introl Hpending)).
  rewrite Hinject. split; [reflexivity|].
  cbn [snd].
  destruct (agent_starts_keep_settled config hs event
              (consumed event (snd (after_compaction event w))) Hstarts)
    as [Hnot Hflag].
  { split; [apply consumed_not_pending | reflexivity]. }
  apply before_agent_start_skips; auto.
Qed.

Lemma recovery_once_witness :
  let w1 := snd (after_compaction (session "s1") (initial_world empty_disk)) in
  let r1 := before_agent_start default_config 5000 (session "s1") w1 in
  let w2 := run default_config [BeforeAgentStart 5500 (session "s2")] (snd r1) in
  fst r1 = Returned (Some (recovery_payload empty_disk))
  /\ before_agent_start default_config 6000 (session "s1") w2
     = (Returned None, w2).
Proof.
  apply (recovery_once default_config (initial_world empty_disk) (session "s1")
           5000 6000 [BeforeAgentStart 5500 (session "s2")]).
  - reflexivity.
  - reflexivity.
Defined.

(** ** What a qualifying [before_compaction] does to the state *)

Lemma same_grants_refl (fs : FileSys) : same_grants fs fs.
Proof. now repeat split. Qed.

Lemma same_grants_trans (fs1 fs2 fs3 : FileSys) :
  same_grants fs1 fs2 -> same_grants fs2 fs3 -> same_grants fs1 fs3.
Proof.
  unfold same_grants. intros (?&?&?&?&?) (?&?&?&?&?).
  repeat split; congruence.
Qed.

Lemma saveContext_grants (iso context : string) (count : Z) (fs : FileSys) :
  same_grants fs (snd (saveContext iso context count fs)).
Proof.
  unfold saveContext, bind, fs_mkdir, fs_writeFile.
  destruct (mkdir_ok fs); [|apply same_grants_refl].
  destruct (write_ok fs); [|apply same_grants_refl].
  now repeat split.
Qed.

(** The part of [before_compaction] after the gate and the marking. *)
Lemma before_compaction_marks (config : CompactionGuardConfig) (now : Z)
    (iso : string) (event : CompactionEvent) (w : World) :
  qualifies config event = true ->
  exists (saved : option string) (fs' : FileSys),
    before_compaction config now iso event w =
      (Returned tt,
       {| state := set_savedContext saved (mark_compaction now (state w));
          needsRecovery := needsRecovery w;
          disk := fs' |})
    /\ same_grants (disk w) fs'.
Proof.
  unfold qualifies, before_compaction. intros Hq.
  apply negb_true_iff in Hq. rewrite Hq.
  unfold bind at 1. unfold modify at 1.
  assert (exists saved fs',
            (Returned tt, with_state (mark_compaction now) w) =
            (Returned tt,
             {| state := set_savedContext saved (mark_compaction now (state w));
                needsRecovery := needsRecovery w; disk := fs' |})
            /\ same_grants (disk w) fs') as Hidle.
  { exists (savedContext (state w)), (disk w).
    split; [reflexivity | apply same_grants_refl]. }
  destruct (messages event) as [| | b | n | str | [|m msgs] | props];
    try exact Hidle.
  destruct (extractTaskContext (JArr (m :: msgs))) as [context|];
    [|exact Hidle].
  destruct (truthy context); [|exact Hidle].
  unfold try_catch, bind, gets, on_disk, modify, ret.
  cbn [state disk needsRecovery with_state fst snd].
  pose proof (saveContext_grants iso context
                (compactionCount (mark_compaction now (state w))) (disk w))
    as Hgrants.
  destruct (saveContext iso context
              (compactionCount (mark_compaction now (state w))) (disk w))
    as [[[]|e] fs'] eqn:Hsave.
  - exists (Some context), fs'. split; [reflexivity | exact Hgrants].
  - exists (savedContext (state w)), fs'.
    split; [reflexivity | exact Hgrants].
Qed.

Lemma before_agent_start_world (config : CompactionGuardConfig) (now : Z)
    (event : SessionEvent) (w : World) :
  snd (before_agent_start config now event w) = w
  \/ snd (before_agent_start config now event w) = consumed event w.
Proof.
  destruct (decide (session_of event ∈ needsRecovery w)) as [Hin|Hout].
  - right. now rewrite before_agent_start_proceeds by (now left).
  - destruct (compactionJustHappened (state w)) eqn:Hflag.
    + destruct (Z.lt_ge_cases 60000 (now - lastCompactionTime (state w)))
        as [Hlate|Hfresh].
      * left. now rewrite before_agent_start_skips by auto.
      * right. now rewrite before_agent_start_proceeds by (now right).
    + left. now rewrite before_agent_start_skips by auto.
Qed.

(** What one hook call does to the clock stamp, the counter and the grants
    of the disk. *)
Lemma dispatch_tracks (config : CompactionGuardConfig) (w : World)
    (h : HookCall) :
  lastCompactionTime (state (dispatch config w h)) =
    default (lastCompactionTime (state w)) (qualifying_call config h)
  /\ compactionCount (state (dispatch config w h)) =
       compactionCount (state w)
       + Z.of_nat (length (qualifying_times config [h]))
  /\ same_grants (disk w) (disk (dispatch config w h)).
Proof.
  destruct h as [now iso event|event|now event];
    unfold qualifying_times; simpl.
  - destruct (qualifies config event) eqn:Hq.
    + destruct (before_compaction_marks config now iso event w Hq)
        as (saved & fs' & -> & Hgrants).
      simpl. repeat split; try apply Hgrants.
    + rewrite before_compaction_skips by assumption. simpl.
      repeat split. lia.
  - repeat split. lia.
  - destruct (before_agent_start_world config now event w) as [-> | ->];
      simpl; repeat split; lia.
Qed.

Lemma run_tracks (config : CompactionGuardConfig) (hs : list HookCall)
    (w : World) :
  lastCompactionTime (state (run config hs w)) =
    default (lastCompactionTime (state w)) (last (qualifying_times config hs))
  /\ compactionCount (state (run config hs w)) =
       compactionCount (state w)
       + Z.of_nat (length (qualifying_times config hs))
  /\ same_grants (disk w) (disk (run config hs w)).
Proof.
  induction hs as [|h hs IH] using rev_ind.
  - simpl. repeat split. lia.
  - rewrite run_app. simpl.
    destruct IH as (Htime & Hcount & Hgrants).
    destruct (dispatch_tracks config (run config hs w) h)
      as (Htime' & Hcount' & Hgrants').
    unfold qualifying_times in *. rewrite omap_app, length_app.
    rewrite Htime', Hcount', Htime, Hcount.
    split; [|split].
    + simpl. destruct (qualifying_call config h) as [t|]; simpl.
      * now rewrite last_snoc.
      * now rewrite app_nil_r.
    + lia.
    + now apply same_grants_trans with (fs2 := disk (run config hs w)).
Qed.

(** C5: once more than 60 seconds have passed since the last qualifying
    compaction of a run, a [before_agent_start] for a session key that is
    not pending returns nothing and changes nothing. *)
Theorem stale_compaction_ignored (config : CompactionGuardConfig)
    (fs : FileSys) (hs : list HookCall) (t now : Z) (event : SessionEvent) :
  let w := run config hs (initial_world fs) in
  last (qualifying_times config hs) = Some t ->
  session_of event ∉ needsRecovery w ->
  60000 < now - t ->
  before_agent_start config now event w = (Returned None, w).
Proof.
  intros w Hlast Hnot Hlate.
  apply before_agent_start_skips; [assumption|]. left.
  destruct (run_tracks config hs (initial_world fs)) as (Htime & _ & _).
  fold w in Htime. rewrite Htime, Hlast. simpl. exact Hlate.
Qed.

Lemma stale_compaction_ignored_witness :
  let w := run default_config
             [BeforeCompaction 1000 sample_iso (compaction_of 10 login_history)]
             (initial_world empty_disk) in
  compactionJustHappened (state w) = true /\
  before_agent_start default_config 70000 (session "s2") w = (Returned None, w).
Proof.
  split; [reflexivity|].
  apply (stale_compaction_ignored default_config empty_disk
           [BeforeCompaction 1000 sample_iso (compaction_of 10 login_history)]
           1000 70000 (session "s2")).
  - reflexivity.
  - change (session_of (session "s2") ∉ (∅ : gset string)).
    apply not_elem_of_empty.
  - reflexivity.
Defined.

(** ** Substrings *)

Lemma contains_refl (s : string) : contains s s.
Proof. exists "", "". now rewrite append_nil, append_empty_r. Qed.

Lemma contains_append_l (a b p : string) :
  contains a p -> contains (a +:+ b) p.
Proof.
  intros (pre & post & ->). exists pre, (post +:+ b).
  now rewrite !append_assoc.
Qed.

Lemma contains_append_r (a b p : string) :
  contains b p -> contains (a +:+ b) p.
Proof.
  intros (pre & post & ->). exists (a +:+ pre), post.
  now rewrite !append_assoc.
Qed.

Lemma contains_trans (a b c : string) :
  contains a b -> contains b c -> contains a c.
Proof.
  intros (pre & post & ->) Hbc.
  apply contains_append_r, contains_append_l, Hbc.
Qed.

Lemma contains_concat (sep : string) (l : list string) (p : string) :
  In p l -> contains (String.concat sep l) p.
Proof.
  induction l as [|x l IH]; intros Hin; [destruct Hin|].
  destruct l as [|y l].
  - destruct Hin as [->|[]]. apply contains_refl.
  - change (String.concat sep (x :: y :: l))
      with (x +:+ sep +:+ String.concat sep (y :: l)).
    destruct Hin as [->|Hin].
    + apply contains_append_l, contains_refl.
    + apply contains_append_r, contains_append_r, IH, Hin.
Qed.

Lemma prefix_by_append (p post : string) :
  prefix_by Ascii.eqb p (p +:+ post) = true.
Proof.
  induction p as [|c p IH]; [reflexivity|].
  rewrite append_cons. simpl. now rewrite Ascii.eqb_refl, IH.
Qed.

Lemma occurs_by_append (p pre rest : string) :
  occurs_by Ascii.eqb p rest = true ->
  occurs_by Ascii.eqb p (pre +:+ rest) = true.
Proof.
  intros H. induction pre as [|c pre IH]; [assumption|].
  rewrite append_cons. simpl. rewrite IH. apply orb_true_r.
Qed.

(** [includes] finds every substring, so a failed search shows that the
    text is not contained. *)
Lemma includes_complete (s p : string) : contains s p -> includes s p = true.
Proof.
  intros (pre & post & ->). unfold includes. apply occurs_by_append.
  destruct (p +:+ post) eqn:E; simpl; rewrite <- E, prefix_by_append;
    reflexivity.
Qed.

Lemma prefix_by_sound (p s : string) :
  prefix_by Ascii.eqb p s = true -> exists post, s = p +:+ post.
Proof.
  revert s. induction p as [|a p IH]; intros s H.
  - exists s. reflexivity.
  - destruct s as [|b s]; [discriminate|]. simpl in H.
    apply andb_prop in H as [Hab Hrest].
    apply Ascii.eqb_eq in Hab as ->.
    destruct (IH s Hrest) as [post ->]. exists post. reflexivity.
Qed.

Lemma includes_sound (s p : string) : includes s p = true -> contains s p.
Proof.
  unfold includes. induction s as [|b s IH]; intros H.
  - simpl in H. rewrite orb_false_r in H.
    apply prefix_by_sound in H as [post ->]. exists "", post. reflexivity.
  - simpl in H. apply orb_prop in H as [H|H].
    + apply prefix_by_sound in H as [post ->]. exists "", post. reflexivity.
    + destruct (IH H) as (pre & post & ->). exists (String b pre), post.
      reflexivity.
Qed.

Lemma not_contains (s p : string) : includes s p = false -> ~ contains s p.
Proof. intros H Hc. apply includes_complete in Hc. congruence. Qed.

(** ** The snapshot written by a qualifying [before_compaction] *)

Lemma truthy_append_l (a b : string) : truthy a = true -> truthy (a +:+ b) = true.
Proof. destruct a; [discriminate | reflexivity]. Qed.

Lemma collected_truthy (msgs : list JsVal) (p : string) :
  In p (collect_context msgs) -> truthy p = true.
Proof.
  rewrite collect_context_flat. intros Hin.
  apply in_flat_map in Hin as (m & _ & Hp).
  apply push_context_shape in Hp as [(t & -> & _)|(t & -> & _)]; reflexivity.
Qed.

Lemma slice_last_nonempty {A : Type} (n : nat) (l : list A) :
  (0 < n)%nat -> l <> [] -> slice_last n l <> [].
Proof.
  intros Hn Hl Hnil. apply (f_equal (@length A)) in Hnil.
  unfold slice_last in Hnil. rewrite length_drop in Hnil.
  destruct l; [congruence|]. simpl in Hnil. lia.
Qed.

Lemma concat_truthy (sep : string) (l : list string) :
  l <> [] -> (forall p, In p l -> truthy p = true) ->
  truthy (String.concat sep l) = true.
Proof.
  destruct l as [|x [|y l]]; intros Hne Hall; [congruence| |].
  - apply Hall. now left.
  - change (String.concat sep (x :: y :: l))
      with (x +:+ sep +:+ String.concat sep (y :: l)).
    apply truthy_append_l, Hall. now left.
Qed.

Lemma extractTaskContext_digest (msgs : list JsVal) :
  collect_context (slice_last 20 msgs) <> [] ->
  extractTaskContext (JArr msgs) =
  Some (String.concat (nl +:+ nl) (digest_parts msgs)).
Proof.
  intros Hne. destruct msgs as [|m msgs]; [now destruct Hne|].
  unfold extractTaskContext, join_context, digest_parts.
  cbv zeta. now destruct (collect_context (slice_last 20 (m :: msgs))).
Qed.

Lemma digest_truthy (msgs : list JsVal) :
  collect_context (slice_last 20 msgs) <> [] ->
  truthy (String.concat (nl +:+ nl) (digest_parts msgs)) = true.
Proof.
  intros Hne. apply concat_truthy.
  - apply slice_last_nonempty; [lia | assumption].
  - intros p Hp. apply In_slice_last in Hp. now apply collected_truthy in Hp.
Qed.

Lemma before_compaction_saves (config : CompactionGuardConfig) (now : Z)
    (iso : string) (event : CompactionEvent) (w : World) (msgs : list JsVal) :
  qualifies config event = true ->
  messages event = JArr msgs ->
  collect_context (slice_last 20 msgs) <> [] ->
  mkdir_ok (disk w) = true -> write_ok (disk w) = true ->
  disk (snd (before_compaction config now iso event w)) =
  set_file
    (Some (utf8_text (disk w)
             (snapshot iso (String.concat (nl +:+ nl) (digest_parts msgs))
                (compactionCount (state w) + 1))))
    (disk w).
Proof.
  intros Hq Hmsgs Hne Hmk Hwr.
  unfold qualifies in Hq. apply negb_true_iff in Hq.
  unfold before_compaction. rewrite Hq, Hmsgs. cbv zeta.
  pose proof (extractTaskContext_digest msgs Hne) as Hdigest.
  pose proof (digest_truthy msgs Hne) as Htruthy.
  destruct msgs as [|m msgs]; [now destruct Hne|].
  unfold bind at 1. unfold modify at 1. cbv beta iota.
  rewrite Hdigest, Htruthy.
  unfold try_catch, bind, gets, on_disk, modify.
  cbn [state disk needsRecovery with_state fst snd].
  rewrite saveContext_granted by assumption. reflexivity.
Qed.

Lemma snapshot_contains_context (iso context : string) (count : Z) :
  contains (snapshot iso context count) context.
Proof. apply contains_concat. simpl. auto 20. Qed.

Lemma snapshot_contains_counter (iso context : string) (count : Z) :
  contains (snapshot iso context count) (counter_line count).
Proof. apply contains_concat. simpl. auto 20. Qed.

Lemma says_user_collected (msgs : list JsVal) (m : JsVal) (c : string) :
  In m msgs -> says_user m c ->
  In ("User: " +:+ truncate 500 c) (collect_context msgs).
Proof.
  intros Hin [Hrole Hcontent]. rewrite collect_context_flat.
  apply in_flat_map. exists m. split; [assumption|].
  unfold push_context. rewrite Hrole, Hcontent.
  destruct m; try discriminate. simpl. now left.
Qed.

Lemma says_task_collected (msgs : list JsVal) (m : JsVal) (text : string) :
  In m msgs -> says_task m text ->
  In ("Assistant: " +:+ truncate 300 text) (collect_context msgs).
Proof.
  intros Hin (Hrole & Htext & Hmatch). rewrite collect_context_flat.
  apply in_flat_map. exists m. split; [assumption|].
  unfold push_context. rewrite Hrole, Htext, Hmatch.
  destruct m; try discriminate.
  destruct text; [discriminate|]. simpl. now left.
Qed.

(** C2, as the code has it: for a history whose last 20 entries hold a user
    message with plain-string content and an assistant message matching a
    task indicator, a context file that can be written and read, and a
    rendered snapshot that the UTF-8 file gives back as written (no
    unpaired surrogate in it, so no passage cut inside a surrogate pair),
    [load()] after a qualifying [before_compaction] returns a snapshot whose
    counter line carries the number of qualifying compactions of the run so
    far and which contains each of the last five passages collected from
    those 20 entries; it contains both given passages whenever those
    entries yield at most five passages. *)
Theorem snapshot_after_compaction (config : CompactionGuardConfig)
    (fs : FileSys) (hs : list HookCall) (now : Z) (iso : string)
    (event : CompactionEvent) (msgs : list JsVal)
    (m_user m_task : JsVal) (c text : string) :
  let w := run config hs (initial_world fs) in
  let w' := snd (before_compaction config now iso event w) in
  let window := slice_last 20 msgs in
  messages event = JArr msgs ->
  qualifies config event = true ->
  mkdir_ok fs = true -> write_ok fs = true -> read_ok fs = true ->
  survives_utf8 fs
    (snapshot iso (String.concat (nl +:+ nl) (digest_parts msgs))
       (compactionCount (state w) + 1)) ->
  In m_user window -> says_user m_user c ->
  In m_task window -> says_task m_task text ->
  exists snap : string,
    fst (loadContext (disk w')) = Returned (Some snap)
    /\ contains snap
         (counter_line
            (Z.of_nat
               (length
                  (qualifying_times config
                     (hs ++ [BeforeCompaction now iso event])))))
    /\ (forall p, In p (digest_parts msgs) -> contains snap p)
    /\ ((length (collect_context window) <= 5)%nat ->
        contains snap ("User: " +:+ truncate 500 c)
        /\ contains snap ("Assistant: " +:+ truncate 300 text)).
Proof.
  intros w w' window Hmsgs Hq Hmk Hwr Hrd Hutf8 Hu Hsu Ht Hst.
  pose proof (says_user_collected window m_user c Hu Hsu) as Hupart.
  pose proof (says_task_collected window m_task text Ht Hst) as Htpart.
  assert (collect_context window <> []) as Hne
    by (intros E; rewrite E in Hupart; destruct Hupart).
  destruct (run_tracks config hs (initial_world fs))
    as (_ & Hcount & Hmk' & Hwr' & Hrd' & _ & Henc).
  fold w in Hcount, Hmk', Hwr', Hrd', Henc.
  simpl in Hcount, Hmk', Hwr', Hrd', Henc.
  assert (disk w' =
          set_file
            (Some (snapshot iso (String.concat (nl +:+ nl) (digest_parts msgs))
                     (compactionCount (state w) + 1)))
            (disk w)) as Hdisk.
  { unfold survives_utf8 in Hutf8. rewrite <- Hutf8 at 1. rewrite <- Henc.
    apply before_compaction_saves with (msgs := msgs); try assumption;
      congruence. }
  exists (snapshot iso (String.concat (nl +:+ nl) (digest_parts msgs))
            (compactionCount (state w) + 1)).
  assert (forall p, In p (digest_parts msgs) ->
            contains
              (snapshot iso (String.concat (nl +:+ nl) (digest_parts msgs))
                 (compactionCount (state w) + 1)) p) as Hparts.
  { intros p Hp. eapply contains_trans; [apply snapshot_contains_context|].
    now apply contains_concat. }
  split; [|split; [|split]].
  - rewrite loadContext_returns, Hdisk. simpl. rewrite Hrd', Hrd. reflexivity.
  - unfold qualifying_times. rewrite omap_app, length_app. simpl. rewrite Hq.
    simpl. rewrite Hcount.
    replace (Z.of_nat (length (omap (qualifying_call config) hs) + 1))
      with (0 + Z.of_nat (length (qualifying_times config hs)) + 1)
      by (unfold qualifying_times; lia).
    apply snapshot_contains_counter.
  - exact Hparts.
  - intros Hfew.
    assert (digest_parts msgs = collect_context window) as Hall
      by (apply slice_last_all, Hfew).
    split; apply Hparts; rewrite Hall; assumption.
Qed.

Lemma snapshot_after_compaction_witness :
  let w' := snd (before_compaction default_config 1000 sample_iso
                   (compaction_of 10 login_history)
                   (initial_world empty_disk)) in
  exists snap : string,
    fst (loadContext (disk w')) = Returned (Some snap)
    /\ contains snap (counter_line 1)
    /\ (forall p, In p (digest_parts login_history) -> contains snap p)
    /\ ((length (collect_context (slice_last 20 login_history)) <= 5)%nat ->
        contains snap ("User: " +:+ truncate 500 "Fix the login bug")
        /\ contains snap
             ("Assistant: "
              +:+ truncate 300 "I'm investigating the login bug now")).
Proof.
  apply (snapshot_after_compaction default_config empty_disk [] 1000 sample_iso
           (compaction_of 10 login_history) login_history
           (user_msg "Fix the login bug")
           (assistant_msg "I'm investigating the login bug now")
           "Fix the login bug" "I'm investigating the login bug now").
  - reflexivity.
  - reflexivity.
  - reflexivity.
  - reflexivity.
  - reflexivity.
  - reflexivity.
  - left. reflexivity.
  - split; reflexivity.
  - right. left. reflexivity.
  - repeat split; reflexivity.
Defined.

(** C2, as stated, fails on a history of ten messages that opens with the
    task and its acknowledgement and goes on with eight short user
    messages: both task passages are within the last 20 entries, the
    compaction qualifies and the file is written, yet the snapshot holds
    only the last five passages and neither of the two. *)
Lemma crowded_history_drops_task :
  let w' := snd (before_compaction default_config 1000 sample_iso
                   (compaction_of 10 crowded_history)
                   (initial_world empty_disk)) in
  In (user_msg "Fix the login bug") (slice_last 20 crowded_history)
  /\ says_user (user_msg "Fix the login bug") "Fix the login bug"
  /\ In (assistant_msg "I'm investigating the login bug now")
        (slice_last 20 crowded_history)
  /\ says_task (assistant_msg "I'm investigating the login bug now")
       "I'm investigating the login bug now"
  /\ exists snap : string,
       fst (loadContext (disk w')) = Returned (Some snap)
       /\ contains snap (counter_line 1)
       /\ ~ contains snap "Fix the login bug"
       /\ ~ contains snap "investigating".
Proof.
  cbv zeta. split; [left; reflexivity|].
  split; [split; reflexivity|].
  split; [right; left; reflexivity|].
  split; [repeat split; reflexivity|].
  eexists. split; [vm_compute; reflexivity|].
  split; [|split].
  - apply includes_sound. vm_compute. reflexivity.
  - apply not_contains. vm_compute. reflexivity.
  - apply not_contains. vm_compute. reflexivity.
Qed.

(** ** The whole cycle on a sample history *)

Example login_scenario :
  let w1 := snd (before_compaction default_config 1000 sample_iso
                   (compaction_of 10 login_history)
                   (initial_world empty_disk)) in
  let w2 := snd (after_compaction (session "s1") w1) in
  exists r : AgentStartResult,
    fst (before_agent_start default_config 2000 (session "s1") w2)
      = Returned (Some r)
    /\ includes (prependContext r) "COMPACTION RECOVERY" = true
    /\ includes (prependContext r) "User: Fix the login bug" = true
    /\ includes (prependContext r)
         "Assistant: I'm investigating the login bug now" = true.
Proof. eexists. repeat split; vm_compute; reflexivity. Qed.

(** * Further properties of the code *)

(** ** Truncation *)

Lemma length_substring_0_exact (n : nat) (s : string) :
  (n <= String.length s)%nat -> String.length (substring 0 n s) = n.
Proof.
  revert s; induction n as [|n IH]; intros [|c s] H; simpl in *;
    try reflexivity; try lia.
  rewrite IH; [reflexivity | lia].
Qed.

Lemma substring_0_append (n : nat) (s t : string) :
  (n <= String.length s)%nat -> substring 0 n (s +:+ t) = substring 0 n s.
Proof.
  revert s; induction n as [|n IH]; intros [|c s] H; simpl in *; try lia.
  - now destruct t.
  - reflexivity.
  - rewrite IH; [reflexivity | lia].
Qed.

Lemma substring_0_idem (n : nat) (s : string) :
  substring 0 n (substring 0 n s) = substring 0 n s.
Proof.
  revert s; induction n as [|n IH]; intros [|c s]; simpl; try reflexivity.
  now rewrite IH.
Qed.

(** X1: the result of [truncate n] has exactly [n + 3] code units when the
    input is longer than [n] and is the input itself otherwise (an input of
    exactly [n] code units is not cut); in both cases its first [n] code
    units are those of the input. *)
Theorem truncate_exact (n : nat) (s : string) :
  String.length (truncate n s) =
    (if (n <? String.length s)%nat then n + 3 else String.length s)%nat
  /\ ((String.length s <= n)%nat -> truncate n s = s)
  /\ substring 0 n (truncate n s) = substring 0 n s.
Proof.
  unfold truncate.
  destruct (Nat.ltb_spec n (String.length s)) as [Hlt|Hge].
  - split; [|split].
    + rewrite length_append, length_substring_0_exact by lia. reflexivity.
    + lia.
    + rewrite substring_0_append.
      * apply substring_0_idem.
      * rewrite length_substring_0_exact; lia.
  - repeat split.
Qed.

(** ** The text extractor never answers the empty string for a sequence *)

(** X2: whatever a sequence of content blocks holds, the text extracted
    from it is never the empty string, while a plain string is returned as
    it is, the empty one included. *)
Theorem extracted_array_text_nonempty (blocks : list JsVal) :
  extractTextContent (JArr blocks) <> Some ""
  /\ extractTextContent (JStr "") = Some "".
Proof.
  split; [|reflexivity].
  unfold extractTextContent. cbv zeta.
  destruct (String.concat nl (fold_left push_text blocks [])) eqn:E;
    simpl; discriminate.
Qed.

(** ** The task-indicator test *)

Lemma to_upper_idem (c : ascii) : to_upper (to_upper c) = to_upper c.
Proof. destruct c as [[] [] [] [] [] [] [] []]; reflexivity. Qed.

Lemma eq_ci_upper_r (a b : ascii) : eq_ci a (to_upper b) = eq_ci a b.
Proof. unfold eq_ci. now rewrite to_upper_idem. Qed.

Lemma eq_ci_true (a b : ascii) : eq_ci a b = true <-> to_upper a = to_upper b.
Proof. unfold eq_ci. apply Ascii.eqb_eq. Qed.

Lemma prefix_by_ci_upcase (p s : string) :
  prefix_by eq_ci p (upcase s) = prefix_by eq_ci p s.
Proof.
  revert s. induction p as [|a p IH]; intros [|b s]; simpl; try reflexivity.
  now rewrite eq_ci_upper_r, IH.
Qed.

Lemma occurs_by_ci_upcase (p s : string) :
  occurs_by eq_ci p (upcase s) = occurs_by eq_ci p s.
Proof.
  induction s as [|b s IH].
  - reflexivity.
  - change (upcase (String b s)) with (String (to_upper b) (upcase s)).
    cbn [occurs_by]. rewrite IH.
    change (String (to_upper b) (upcase s)) with (upcase (String b s)).
    now rewrite prefix_by_ci_upcase.
Qed.

(** X3: the task-indicator test does not look at letter case: folding the
    text changes nothing. *)
Theorem indicator_ignores_case (text : string) :
  test_task_indicator (upcase text) = test_task_indicator text.
Proof.
  unfold test_task_indicator.
  induction task_indicators as [|kw kws IH]; [reflexivity|].
  simpl. now rewrite occurs_by_ci_upcase, IH.
Qed.

Lemma prefix_by_ci_spec (p s : string) :
  prefix_by eq_ci p s = true <->
  exists mid post, s = mid +:+ post /\ upcase mid = upcase p.
Proof.
  revert s. induction p as [|a p IH]; intros s.
  - split; [|reflexivity]. intros _. exists "", s. now split.
  - destruct s as [|b s]; simpl.
    + split; [discriminate|].
      intros (mid & post & Hs & Hup). destruct mid; [discriminate|].
      rewrite append_cons in Hs. discriminate.
    + rewrite andb_true_iff, eq_ci_true, IH. split.
      * intros (Hab & mid & post & -> & Hup).
        exists (String b mid), post. split; [reflexivity|].
        simpl. now rewrite Hup, Hab.
      * intros (mid & post & Hs & Hup).
        destruct mid as [|m mid]; [discriminate|].
        rewrite append_cons in Hs. injection Hs as -> ->.
        simpl in Hup. injection Hup as Hm Hup.
        split; [now symmetry|]. now exists mid, post.
Qed.

Lemma occurs_by_ci_spec (p s : string) :
  occurs_by eq_ci p s = true <->
  exists pre mid post, s = pre +:+ mid +:+ post /\ upcase mid = upcase p.
Proof.
  induction s as [|b s IH].
  - simpl. rewrite orb_false_r, prefix_by_ci_spec. split.
    + intros (mid & post & Hs & Hup). now exists "", mid, post.
    + intros (pre & mid & post & Hs & Hup).
      destruct pre; [|rewrite append_cons in Hs; discriminate].
      now exists mid, post.
  - cbn [occurs_by]. rewrite orb_true_iff, IH, prefix_by_ci_spec. split.
    + intros [(mid & post & Hs & Hup)|(pre & mid & post & -> & Hup)].
      * now exists "", mid, post.
      * now exists (String b pre), mid, post.
    + intros (pre & mid & post & Hs & Hup).
      destruct pre as [|c pre].
      * left. now exists mid, post.
      * right. rewrite append_cons in Hs. injection Hs as -> ->.
        now exists pre, mid, post.
Qed.

(** X4: the task-indicator test succeeds exactly on the texts that hold,
    at some position, a run of code units that equals one of the six
    indicator phrases up to letter case. *)
Theorem indicator_matches_phrase (text : string) :
  test_task_indicator text = true <->
  exists kw pre mid post,
    In kw task_indicators
    /\ text = pre +:+ mid +:+ post
    /\ upcase mid = upcase kw.
Proof.
  unfold test_task_indicator. rewrite existsb_exists. split.
  - intros (kw & Hin & Hocc).
    apply occurs_by_ci_spec in Hocc as (pre & mid & post & Hs & Hup).
    now exists kw, pre, mid, post.
  - intros (kw & pre & mid & post & Hin & Hs & Hup).
    exists kw. split; [assumption|].
    apply occurs_by_ci_spec. now exists pre, mid, post.
Qed.

(** X5: the test is not anchored: a text that matches still matches with
    anything written before and after it. *)
Theorem indicator_survives_context (pre text post : string) :
  test_task_indicator text = true ->
  test_task_indicator (pre +:+ text +:+ post) = true.
Proof.
  unfold test_task_indicator. rewrite !existsb_exists.
  intros (kw & Hin & Hocc). exists kw. split; [assumption|].
  apply occurs_by_ci_spec in Hocc as (a & mid & b & -> & Hup).
  apply occurs_by_ci_spec. exists (pre +:+ a), mid, (b +:+ post).
  split; [|assumption]. now rewrite !append_assoc.
Qed.

Lemma indicator_survives_context_witness :
  test_task_indicator ("I am " +:+ "Fixing" +:+ " the parser") = true.
Proof.
  apply (indicator_survives_context "I am " "Fixing" " the parser").
  reflexivity.
Defined.

(** ** The summarizer *)

Lemma extractTaskContext_unfold (msgs : list JsVal) :
  extractTaskContext (JArr msgs) =
  join_context (collect_context (slice_last 20 msgs)).
Proof. destruct msgs; reflexivity. Qed.

Lemma says_user_object (msg : JsVal) (c : string) :
  says_user msg c -> is_object msg = true.
Proof. intros [Hrole _]. now destruct msg. Qed.

Lemma says_task_object (msg : JsVal) (text : string) :
  says_task msg text -> is_object msg = true.
Proof. intros [Hrole _]. now destruct msg. Qed.

(** X6: a message adds a passage to the digest in two cases only: a user
    message with plain-string content adds that content, cut at 500, behind
    [User: ]; an assistant message whose extracted text matches a task
    indicator adds that text, cut at 300, behind [Assistant: ]; every other
    value adds nothing. *)
Theorem passage_sources (msg : JsVal) :
  (forall c, says_user msg c ->
     push_context [] msg = ["User: " +:+ truncate 500 c])
  /\ (forall text, says_task msg text ->
       push_context [] msg = ["Assistant: " +:+ truncate 300 text])
  /\ ((forall c, ~ says_user msg c) -> (forall text, ~ says_task msg text) ->
      push_context [] msg = []).
Proof.
  split; [|split].
  - intros c Hu. pose proof (says_user_object msg c Hu) as Hobj.
    destruct Hu as [Hrole Hcontent]. unfold push_context.
    now rewrite Hobj, Hrole, Hcontent.
  - intros text Ht. pose proof (says_task_object msg text Ht) as Hobj.
    destruct Ht as (Hrole & Htext & Hmatch). unfold push_context.
    rewrite Hobj, Hrole, Htext, Hmatch. simpl.
    destruct text; [discriminate | reflexivity].
  - intros Hnu Hnt. unfold push_context.
    destruct (negb (is_object msg)); [reflexivity|].
    destruct (str_is (get_prop msg "role") "user"
              && is_string (get_prop msg "content")) eqn:Hu.
    + exfalso. apply andb_prop in Hu as [Hrole Hcontent].
      destruct (get_prop msg "content") as [| | | |c| |] eqn:Ec;
        try discriminate.
      apply (Hnu c). split; [|assumption].
      destruct (get_prop msg "role"); try discriminate.
      simpl in Hrole. apply String.eqb_eq in Hrole. now subst.
    + destruct (str_is (get_prop msg "role") "assistant") eqn:Ha;
        [|reflexivity].
      destruct (extractTextContent (get_prop msg "content")) as [text|] eqn:Et;
        [|reflexivity].
      destruct (test_task_indicator text) eqn:Hm;
        [|now rewrite andb_false_r].
      exfalso. apply (Hnt text). split; [|now split].
      destruct (get_prop msg "role"); try discriminate.
      simpl in Ha. apply String.eqb_eq in Ha. now subst.
Qed.

(** X7: passages are collected message by message, in order: the passages
    of two histories put end to end are the passages of the first followed
    by those of the second. *)
Theorem collect_context_app (older newer : list JsVal) :
  collect_context (older ++ newer) =
  collect_context older ++ collect_context newer.
Proof. rewrite !collect_context_flat. apply flat_map_app. Qed.

Lemma slice_last_app {A : Type} (n : nat) (old recent : list A) :
  (n <= length recent)%nat ->
  slice_last n (old ++ recent) = slice_last n recent.
Proof.
  intros H. unfold slice_last. rewrite length_app.
  replace (length old + length recent - n)%nat
    with (length old + (length recent - n))%nat by lia.
  apply drop_app_add.
Qed.

(** X8: only the last 20 messages count: whatever precedes twenty or more
    messages leaves their digest unchanged. *)
Theorem older_messages_ignored (old recent : list JsVal) :
  (20 <= length recent)%nat ->
  extractTaskContext (JArr (old ++ recent)) = extractTaskContext (JArr recent).
Proof.
  intros H. rewrite !extractTaskContext_unfold.
  now rewrite slice_last_app.
Qed.

Lemma older_messages_ignored_witness :
  extractTaskContext (JArr long_history)
  = extractTaskContext (JArr (drop 5 long_history)).
Proof.
  apply (older_messages_ignored (take 5 long_history) (drop 5 long_history)).
  vm_compute. lia.
Defined.

Lemma length_slice_last {A : Type} (n : nat) (l : list A) :
  (length (slice_last n l) <= n)%nat.
Proof. unfold slice_last. rewrite length_drop. lia. Qed.

Lemma collected_length (msgs : list JsVal) (p : string) :
  In p (collect_context msgs) -> (String.length p <= 509)%nat.
Proof.
  rewrite collect_context_flat. intros Hin.
  apply in_flat_map in Hin as (m & _ & Hp).
  apply push_context_shape in Hp as [(t & -> & Ht)|(t & -> & Ht)];
    rewrite length_append; simpl; lia.
Qed.

Lemma length_concat_blank (l : list string) :
  l <> [] ->
  (forall p, In p l -> (String.length p <= 509)%nat) ->
  (String.length (String.concat (nl +:+ nl) l) + 2 <= length l * 511)%nat.
Proof.
  induction l as [|x l IH]; intros Hne Hall; [congruence|].
  destruct l as [|y l].
  - simpl. specialize (Hall x (or_introl eq_refl)). lia.
  - change (String.concat (nl +:+ nl) (x :: y :: l))
      with (x +:+ (nl +:+ nl) +:+ String.concat (nl +:+ nl) (y :: l)).
    rewrite !length_append.
    assert (String.length (String.concat (nl +:+ nl) (y :: l)) + 2
            <= length (y :: l) * 511)%nat as Hrest.
    { apply IH; [discriminate|]. intros p Hp. apply Hall. now right. }
    specialize (Hall x (or_introl eq_refl)).
    change (String.length nl) with 1%nat.
    remember (String.length (String.concat (nl +:+ nl) (y :: l))) as rest.
    cbn [length] in *. lia.
Qed.

(** X9: a digest holds at most five passages and is at most 2553 code
    units long (five labelled user passages of 509 and four blank-line
    separators), however long the history and its messages are. *)
Theorem digest_size_bound (msgs : list JsVal) (d : string) :
  extractTaskContext (JArr msgs) = Some d ->
  (length (digest_parts msgs) <= 5)%nat
  /\ (String.length d <= 2553)%nat.
Proof.
  intros Hd. pose proof (length_slice_last 5
                           (collect_context (slice_last 20 msgs))) as Hfive.
  fold (digest_parts msgs) in Hfive. split; [assumption|].
  rewrite (digest_is_joined_parts msgs d Hd).
  assert (digest_parts msgs <> []) as Hne.
  { rewrite extractTaskContext_unfold in Hd. unfold digest_parts.
    apply slice_last_nonempty; [lia|].
    intros E. rewrite E in Hd. discriminate. }
  pose proof (length_concat_blank (digest_parts msgs) Hne) as Hlen.
  assert (forall p, In p (digest_parts msgs) -> (String.length p <= 509)%nat)
    as Hall.
  { intros p Hp. apply In_slice_last in Hp. now apply collected_length in Hp. }
  specialize (Hlen Hall). lia.
Qed.

Lemma digest_size_bound_witness :
  (length (digest_parts crowded_history) <= 5)%nat
  /\ (String.length
        ("User: d" +:+ nl +:+ nl +:+ "User: e" +:+ nl +:+ nl +:+ "User: f"
         +:+ nl +:+ nl +:+ "User: g" +:+ nl +:+ nl +:+ "User: h") <= 2553)%nat.
Proof.
  apply (digest_size_bound crowded_history). reflexivity.
Defined.

(** X10: the summarizer never returns the empty string: a digest, when
    there is one, is a non-empty text, and there is none exactly when the
    last 20 messages yield no passage. *)
Theorem digest_never_empty (msgs : list JsVal) :
  extractTaskContext (JArr msgs) <> Some ""
  /\ (extractTaskContext (JArr msgs) = None <->
      collect_context (slice_last 20 msgs) = []).
Proof.
  rewrite extractTaskContext_unfold. split.
  - destruct (collect_context (slice_last 20 msgs)) as [|p ps] eqn:E;
      [discriminate|].
    intros Hd. pose proof (digest_truthy msgs) as Ht.
    rewrite E in Ht. specialize (Ht ltac:(discriminate)).
    unfold digest_parts in Ht. rewrite E in Ht.
    simpl in Hd. injection Hd as Hd. rewrite Hd in Ht. discriminate.
  - destruct (collect_context (slice_last 20 msgs)); simpl;
      split; intros H; try reflexivity; discriminate.
Qed.

(** ** The context store, operation by operation *)

(** X11: round trip: when the directory can be made and the file written
    and read, [load()] right after [save(digest, n)] returns the rendered
    snapshot as the UTF-8 file holds it, whatever the file held before; the
    text returned is exactly the rendered snapshot if and only if the
    snapshot is one that UTF-8 gives back as written (it has no unpaired
    surrogate). *)
Theorem save_then_load (iso context : string) (count : Z) (fs : FileSys) :
  mkdir_ok fs = true -> write_ok fs = true -> read_ok fs = true ->
  fst ((saveContext iso context count ;; loadContext) fs)
  = Returned (Some (utf8_text fs (snapshot iso context count)))
  /\ (fst ((saveContext iso context count ;; loadContext) fs)
      = Returned (Some (snapshot iso context count))
      <-> survives_utf8 fs (snapshot iso context count)).
Proof.
  intros Hmk Hwr Hrd. unfold bind.
  rewrite saveContext_granted by assumption.
  rewrite loadContext_returns. simpl. rewrite Hrd.
  split; [reflexivity|]. unfold survives_utf8. split.
  - now intros [= H].
  - now intros ->.
Qed.

Lemma save_then_load_witness :
  fst ((saveContext sample_iso "User: hi" 3 ;; loadContext) pinned_disk)
  = Returned (Some (snapshot sample_iso "User: hi" 3)).
Proof.
  apply (save_then_load sample_iso "User: hi" 3 pinned_disk); reflexivity.
Defined.




(** X13: the store has one slot: two saves in a row end as the second one
    alone does, in outcome and in file content. *)
Theorem save_overwrites (iso1 context1 iso2 context2 : string)
    (count1 count2 : Z) (fs : FileSys) :
  (saveContext iso1 context1 count1 ;; saveContext iso2 context2 count2) fs
  = saveContext iso2 context2 count2 fs.
Proof.
  unfold saveContext, bind, fs_mkdir, fs_writeFile, set_file.
  destruct fs as [f [] [] rd un]; reflexivity.
Qed.

(** X14: [clear()] is idempotent, and [load()] is a pure read: it never
    throws and never changes the file. *)
Theorem clear_idempotent_load_pure (fs : FileSys) :
  (clearContext ;; clearContext) fs = clearContext fs
  /\ exists r, loadContext fs = (Returned r, fs).
Proof.
  split.
  - unfold bind. rewrite clearContext_returns.
    rewrite clearContext_returns.
    destruct fs as [f mk wr rd []]; reflexivity.
  - rewrite loadContext_returns. eauto.
Qed.

Lemma snapshot_truthy (iso context : string) (count : Z) :
  truthy (snapshot iso context count) = true.
Proof. reflexivity. Qed.

(** X15: a rendered snapshot opens with the fixed heading, holds the
    timestamp, the counter line and the digest verbatim, and is never
    empty. *)
Theorem snapshot_embeds (iso context : string) (count : Z) :
  String.prefix "# Compaction Recovery Context" (snapshot iso context count)
    = true
  /\ contains (snapshot iso context count) ("*Auto-saved at: " +:+ iso +:+ "*")
  /\ contains (snapshot iso context count) (counter_line count)
  /\ contains (snapshot iso context count) context
  /\ truthy (snapshot iso context count) = true.
Proof.
  split; [reflexivity|].
  split; [apply contains_concat; simpl; auto 20|].
  split; [apply snapshot_contains_counter|].
  split; [apply snapshot_contains_context | reflexivity].
Qed.

(** ** Bookkeeping along a run *)

(** X16: along any run of hook calls the compaction counter grows by the
    number of qualifying compactions and never decreases, and the stamp
    [lastCompactionTime] is the clock of the last qualifying compaction, or
    the old stamp when the run has none. *)
Theorem run_bookkeeping (config : CompactionGuardConfig) (hs : list HookCall)
    (w : World) :
  compactionCount (state (run config hs w)) =
    compactionCount (state w) + Z.of_nat (length (qualifying_times config hs))
  /\ compactionCount (state w) <= compactionCount (state (run config hs w))
  /\ lastCompactionTime (state (run config hs w)) =
       default (lastCompactionTime (state w))
         (last (qualifying_times config hs)).
Proof.
  destruct (run_tracks config hs w) as (Htime & Hcount & _).
  repeat split; try assumption. lia.
Qed.

(** X17: a qualifying [before_compaction] never throws and always marks the
    state (flag set, stamp taken, counter up by one), whatever its messages
    hold and whether or not the snapshot could be written; it leaves the
    pending set alone. *)
Theorem qualifying_compaction_marks (config : CompactionGuardConfig) (now : Z)
    (iso : string) (event : CompactionEvent) (w : World) :
  qualifies config event = true ->
  exists w' : World,
    before_compaction config now iso event w = (Returned tt, w')
    /\ compactionJustHappened (state w') = true
    /\ lastCompactionTime (state w') = now
    /\ compactionCount (state w') = compactionCount (state w) + 1
    /\ needsRecovery w' = needsRecovery w.
Proof.
  intros Hq.
  destruct (before_compaction_marks config now iso event w Hq)
    as (saved & fs' & -> & _).
  eexists. split; [reflexivity|]. now repeat split.
Qed.

Lemma qualifying_compaction_marks_witness :
  exists w' : World,
    before_compaction default_config 1000 sample_iso
      (compaction_of 10 login_history) (initial_world locked_disk)
    = (Returned tt, w')
    /\ compactionJustHappened (state w') = true
    /\ lastCompactionTime (state w') = 1000
    /\ compactionCount (state w') = 0 + 1
    /\ needsRecovery w' = ∅.
Proof.
  apply (qualifying_compaction_marks default_config 1000 sample_iso
           (compaction_of 10 login_history) (initial_world locked_disk)).
  reflexivity.
Defined.

Lemma extractTaskContext_truthy (messages : JsVal) (context : string) :
  extractTaskContext messages = Some context -> truthy context = true.
Proof.
  destruct messages as [| | | | |msgs|]; try discriminate.
  rewrite extractTaskContext_unfold. intros Hd.
  destruct (collect_context (slice_last 20 msgs)) as [|p ps] eqn:E;
    [discriminate|].
  pose proof (digest_truthy msgs) as Ht. rewrite E in Ht.
  specialize (Ht ltac:(discriminate)).
  unfold digest_parts in Ht. rewrite E in Ht.
  simpl in Hd. injection Hd as <-. exact Ht.
Qed.

(** X18: a qualifying compaction whose messages yield no digest (no
    message array, an empty one, or no passage in the last 20) only marks
    the state: the file is not touched, so an older snapshot stays in
    place. *)
Theorem compaction_without_digest (config : CompactionGuardConfig) (now : Z)
    (iso : string) (event : CompactionEvent) (w : World) :
  qualifies config event = true ->
  extractTaskContext (messages event) = None ->
  before_compaction config now iso event w = (Returned tt, marked now w).
Proof.
  unfold qualifies, before_compaction. intros Hq Hnone.
  apply negb_true_iff in Hq. rewrite Hq. cbv zeta.
  unfold bind at 1. unfold modify at 1. cbv beta iota.
  destruct (messages event) as [| | | | |[|m msgs]|]; try reflexivity.
  now rewrite Hnone.
Qed.

Lemma compaction_without_digest_witness :
  before_compaction default_config 1000 sample_iso
    {| messageCount := Some 12; messages := JArr [assistant_msg "ok"] |}
    (initial_world pinned_disk)
  = (Returned tt, marked 1000 (initial_world pinned_disk)).
Proof.
  apply (compaction_without_digest default_config 1000 sample_iso
           {| messageCount := Some 12; messages := JArr [assistant_msg "ok"] |}
           (initial_world pinned_disk)); reflexivity.
Defined.



(** X20: when the snapshot can be written, a qualifying compaction with a
    digest ends in exactly this world: state marked, [savedContext] set to
    the digest, the file replaced by the snapshot that carries the new
    counter value, held as UTF-8 holds it (unchanged unless the snapshot
    has an unpaired surrogate), pending set as before. *)
Theorem compaction_saves_digest (config : CompactionGuardConfig) (now : Z)
    (iso : string) (event : CompactionEvent) (w : World) (context : string) :
  qualifies config event = true ->
  extractTaskContext (messages event) = Some context ->
  mkdir_ok (disk w) = true -> write_ok (disk w) = true ->
  before_compaction config now iso event w =
  (Returned tt,
   {| state := set_savedContext (Some context)
                 (mark_compaction now (state w));
      needsRecovery := needsRecovery w;
      disk := set_file
                (Some (utf8_text (disk w)
                         (snapshot iso context
                            (compactionCount (state w) + 1))))
                (disk w) |}).
Proof.
  unfold qualifies, before_compaction. intros Hq Hsome Hmk Hwr.
  pose proof (extractTaskContext_truthy _ _ Hsome) as Htruthy.
  apply negb_true_iff in Hq. rewrite Hq. cbv zeta.
  unfold bind at 1. unfold modify at 1. cbv beta iota.
  destruct (messages event) as [| | | | |[|m msgs]|]; try discriminate.
  rewrite Hsome, Htruthy.
  unfold try_catch, bind, gets, on_disk, modify.
  cbn [state disk needsRecovery with_state fst snd].
  now rewrite saveContext_granted by assumption.
Qed.

Lemma compaction_saves_digest_witness :
  before_compaction default_config 1000 sample_iso
    (compaction_of 10 [user_msg "Fix the login bug"]) (initial_world empty_disk)
  = (Returned tt,
     {| state := set_savedContext (Some "User: Fix the login bug")
                   (mark_compaction 1000 initial_state);
        needsRecovery := ∅;
        disk := set_file
                  (Some (snapshot sample_iso "User: Fix the login bug" (0 + 1)))
                  empty_disk |}).
Proof.
  apply (compaction_saves_digest default_config 1000 sample_iso
           (compaction_of 10 [user_msg "Fix the login bug"])
           (initial_world empty_disk) "User: Fix the login bug");
    reflexivity.
Defined.

(** ** The pending set *)

Lemma before_compaction_needsRecovery (config : CompactionGuardConfig)
    (now : Z) (iso : string) (event : CompactionEvent) (w : World) :
  needsRecovery (snd (before_compaction config now iso event w))
  = needsRecovery w.
Proof.
  destruct (qualifies config event) eqn:Hq.
  - destruct (before_compaction_marks config now iso event w Hq)
      as (saved & fs' & -> & _). reflexivity.
  - now rewrite before_compaction_skips.
Qed.

Lemma dispatch_pending_origin (config : CompactionGuardConfig) (w : World)
    (h : HookCall) (k : string) :
  k ∈ needsRecovery (dispatch config w h) ->
  k ∈ needsRecovery w \/ marks_session k h = true.
Proof.
  destruct h as [now iso event|event|now event]; simpl.
  - rewrite before_compaction_needsRecovery. now left.
  - intros Hin. apply elem_of_union in Hin as [Hin|Hin]; [|now left].
    right. apply elem_of_singleton in Hin. subst. apply String.eqb_refl.
  - destruct (before_agent_start_world config now event w) as [-> | ->];
      simpl; [now left|].
    intros Hin. apply elem_of_difference in Hin as [Hin _]. now left.
Qed.

(** X21: a session key gets into the pending set through [after_compaction]
    only: a key pending after a run was pending before it or some
    [after_compaction] of the run named it. *)
Theorem pending_comes_from_after_compaction (config : CompactionGuardConfig)
    (hs : list HookCall) (w : World) (k : string) :
  k ∈ needsRecovery (run config hs w) ->
  k ∈ needsRecovery w \/ existsb (marks_session k) hs = true.
Proof.
  revert w. induction hs as [|h hs IH]; intros w Hin; [now left|].
  simpl in Hin. apply IH in Hin as [Hin|Hin].
  - apply dispatch_pending_origin in Hin as [Hin|Hin]; [now left|].
    right. simpl. now rewrite Hin.
  - right. simpl. rewrite Hin. apply orb_true_r.
Qed.

Lemma pending_comes_from_after_compaction_witness :
  "s1" ∈ needsRecovery (initial_world empty_disk)
  \/ existsb (marks_session "s1")
       [BeforeCompaction 1000 sample_iso (compaction_of 10 login_history);
        AfterCompaction (session "s1")] = true.
Proof.
  apply (pending_comes_from_after_compaction default_config
           [BeforeCompaction 1000 sample_iso (compaction_of 10 login_history);
            AfterCompaction (session "s1")]
           (initial_world empty_disk) "s1").
  apply elem_of_union_l, elem_of_singleton. reflexivity.
Defined.

(** X22: [after_compaction] only adds its session key to the pending set,
    touching neither the state nor the file, and it is idempotent: several
    compactions of one session leave one pending entry. *)
Theorem after_compaction_idempotent (event : SessionEvent) (w : World) :
  after_compaction event w =
    (Returned tt,
     {| state := state w;
        needsRecovery := {[session_of event]} ∪ needsRecovery w;
        disk := disk w |})
  /\ (after_compaction event ;; after_compaction event) w
     = after_compaction event w.
Proof.
  split; [reflexivity|].
  unfold bind, after_compaction, modify, with_needsRecovery. simpl.
  do 2 f_equal. apply set_eq. intros k. rewrite !elem_of_union. tauto.
Qed.

Lemma dispatch_keeps_pending (config : CompactionGuardConfig) (w : World)
    (h : HookCall) (k : string) :
  starts_session k h = false ->
  k ∈ needsRecovery w -> k ∈ needsRecovery (dispatch config w h).
Proof.
  destruct h as [now iso event|event|now event]; simpl; intros Hother Hin.
  - now rewrite before_compaction_needsRecovery.
  - now apply elem_of_union_r.
  - destruct (before_agent_start_world config now event w) as [-> | ->];
      simpl; [assumption|].
    apply elem_of_difference. split; [assumption|].
    intros Heq. apply elem_of_singleton in Heq. subst.
    now rewrite String.eqb_refl in Hother.
Qed.

Lemma run_keeps_pending (config : CompactionGuardConfig) (hs : list HookCall)
    (w : World) (k : string) :
  existsb (starts_session k) hs = false ->
  k ∈ needsRecovery w -> k ∈ needsRecovery (run config hs w).
Proof.
  revert w. induction hs as [|h hs IH]; intros w Hnone Hin; [assumption|].
  simpl in Hnone. apply orb_false_elim in Hnone as [Hh Hhs].
  simpl. apply IH; [assumption|]. now apply dispatch_keeps_pending.
Qed.

(** X23: a pending entry does not expire: once a session is pending it
    stays so through any hook calls other than its own
    [before_agent_start], and that call then injects the recovery payload
    however much time has passed. *)
Theorem pending_never_expires (config : CompactionGuardConfig)
    (hs : list HookCall) (w : World) (event : SessionEvent) (now : Z) :
  injectRecovery config = true ->
  session_of event ∈ needsRecovery w ->
  existsb (starts_session (session_of event)) hs = false ->
  let w' := run config hs w in
  session_of event ∈ needsRecovery w'
  /\ fst (before_agent_start config now event w')
     = Returned (Some (recovery_payload (disk w'))).
Proof.
  intros Hinject Hin Hnone w'.
  assert (session_of event ∈ needsRecovery w') as Hin'
    by now apply run_keeps_pending.
  split; [assumption|].
  rewrite (before_agent_start_proceeds config now event w' (or_introl Hin')).
  now rewrite Hinject.
Qed.

Lemma pending_never_expires_witness :
  let w' := run default_config
              [BeforeCompaction 1000 sample_iso (compaction_of 10 login_history);
               BeforeAgentStart 2000 (session "s2")]
              (snd (after_compaction (session "s1")
                      (initial_world empty_disk))) in
  session_of (session "s1") ∈ needsRecovery w'
  /\ fst (before_agent_start default_config 86400000 (session "s1") w')
     = Returned (Some (recovery_payload (disk w'))).
Proof.
  apply (pending_never_expires default_config
           [BeforeCompaction 1000 sample_iso (compaction_of 10 login_history);
            BeforeAgentStart 2000 (session "s2")]
           (snd (after_compaction (session "s1") (initial_world empty_disk)))
           (session "s1") 86400000).
  - reflexivity.
  - apply elem_of_union_l, elem_of_singleton. reflexivity.
  - reflexivity.
Defined.

(** ** [before_agent_start]: fallback, frame and payload *)

(** X24: the time-boxed fallback serves one start: with the flag set and
    at most 60 seconds since the stamp (60000 ms included), the first
    [before_agent_start] injects whatever its session key is, pending or
    not; having cleared the flag, it leaves nothing for the next start of a
    session that is not pending. *)
Theorem fallback_serves_one_start (config : CompactionGuardConfig)
    (now1 now2 : Z) (first second : SessionEvent) (w : World) :
  injectRecovery config = true ->
  compactionJustHappened (state w) = true ->
  now1 - lastCompactionTime (state w) <= 60000 ->
  session_of second ∉ needsRecovery w ->
  let r1 := before_agent_start config now1 first w in
  fst r1 = Returned (Some (recovery_payload (disk w)))
  /\ before_agent_start config now2 second (snd r1) = (Returned None, snd r1).
Proof.
  intros Hinject Hflag Hfresh Hnot. cbv zeta.
  rewrite (before_agent_start_proceeds config now1 first w
             (or_intror (conj Hflag Hfresh))).
  rewrite Hinject. split; [reflexivity|]. cbn [snd].
  apply before_agent_start_skips; [|now right].
  simpl. intros Hin. apply elem_of_difference in Hin as [Hin _].
  now apply Hnot.
Qed.

Lemma fallback_serves_one_start_witness :
  let w := snd (before_compaction default_config 1000 sample_iso
                  (compaction_of 10 login_history)
                  (initial_world empty_disk)) in
  let r1 := before_agent_start default_config 61000 (session "s1") w in
  fst r1 = Returned (Some (recovery_payload (disk w)))
  /\ before_agent_start default_config 61001 (session "s2") (snd r1)
     = (Returned None, snd r1).
Proof.
  apply (fallback_serves_one_start default_config 61000 61001
           (session "s1") (session "s2")
           (snd (before_compaction default_config 1000 sample_iso
                   (compaction_of 10 login_history)
                   (initial_world empty_disk)))).
  - reflexivity.
  - reflexivity.
  - vm_compute. discriminate.
  - change (session_of (session "s2") ∉ (∅ : gset string)).
    apply not_elem_of_empty.
Defined.

(** X25: [before_agent_start] writes nothing: the file, the counter, the
    stamp and [savedContext] are as before; it never adds a pending entry,
    and the entries of other sessions are kept. *)
Theorem agent_start_frame (config : CompactionGuardConfig) (now : Z)
    (event : SessionEvent) (w : World) :
  let w' := snd (before_agent_start config now event w) in
  disk w' = disk w
  /\ compactionCount (state w') = compactionCount (state w)
  /\ lastCompactionTime (state w') = lastCompactionTime (state w)
  /\ savedContext (state w') = savedContext (state w)
  /\ (forall k, k ∈ needsRecovery w' -> k ∈ needsRecovery w)
  /\ (forall k, k <> session_of event ->
        k ∈ needsRecovery w -> k ∈ needsRecovery w').
Proof.
  cbv zeta.
  destruct (before_agent_start_world config now event w) as [-> | ->].
  - repeat split; auto.
  - simpl. repeat split.
    + intros k Hin. now apply elem_of_difference in Hin as [Hin _].
    + intros k Hne Hin. apply elem_of_difference. split; [assumption|].
      intros Heq. now apply elem_of_singleton in Heq.
Qed.

(** X26: the payload of a proceeding [before_agent_start] with injection
    enabled, whether it proceeds because the session is pending or through
    the time-boxed fallback, always opens with the static recovery prompt;
    it is that prompt alone when the context file is missing, unreadable or
    empty, and the prompt followed by the [Saved Context] section and the
    file's text otherwise. *)
Theorem recovery_payload_shape (config : CompactionGuardConfig) (now : Z)
    (event : SessionEvent) (w : World) :
  injectRecovery config = true ->
  session_of event ∈ needsRecovery w
  \/ (compactionJustHappened (state w) = true
      /\ now - lastCompactionTime (state w) <= 60000) ->
  exists r : AgentStartResult,
    fst (before_agent_start config now event w) = Returned (Some r)
    /\ (exists rest, prependContext r = RECOVERY_PROMPT +:+ rest)
    /\ (file (disk w) = None \/ read_ok (disk w) = false
        \/ file (disk w) = Some "" ->
        prependContext r = RECOVERY_PROMPT)
    /\ (forall s, file (disk w) = Some s -> read_ok (disk w) = true ->
        s <> "" ->
        prependContext r =
          RECOVERY_PROMPT +:+ nl +:+ nl +:+ "---" +:+ nl +:+ nl
          +:+ "**Saved Context:**" +:+ nl +:+ nl +:+ s).
Proof.
  intros Hinject Hgo.
  rewrite (before_agent_start_proceeds config now event w Hgo).
  rewrite Hinject. eexists. split; [reflexivity|].
  unfold recovery_payload. cbn [prependContext].
  split; [eauto|]. split.
  - intros [Hf|[Hr|Hf]].
    + rewrite Hf. destruct (read_ok (disk w)); apply append_empty_r.
    + rewrite Hr. apply append_empty_r.
    + rewrite Hf. destruct (read_ok (disk w)); apply append_empty_r.
  - intros s Hf Hr Hs. rewrite Hf, Hr. destruct s; [congruence|]. reflexivity.
Qed.

(** The fallback path with a snapshot on disk: a compaction saved the
    digest, no [after_compaction] followed, and a session that is not
    pending starts one second later. *)
Lemma recovery_payload_shape_witness :
  let w := snd (before_compaction default_config 1000 sample_iso
                  (compaction_of 10 login_history)
                  (initial_world empty_disk)) in
  exists r : AgentStartResult,
    fst (before_agent_start default_config 2000 (session "s1") w)
      = Returned (Some r)
    /\ prependContext r =
         RECOVERY_PROMPT +:+ nl +:+ nl +:+ "---" +:+ nl +:+ nl
         +:+ "**Saved Context:**" +:+ nl +:+ nl
         +:+ snapshot sample_iso
               ("User: Fix the login bug" +:+ nl +:+ nl
                +:+ "Assistant: I'm investigating the login bug now") 1.
Proof.
  cbv zeta.
  destruct (recovery_payload_shape default_config 2000 (session "s1")
              (snd (before_compaction default_config 1000 sample_iso
                      (compaction_of 10 login_history)
                      (initial_world empty_disk))))
    as (r & Hr & _ & _ & Hsaved).
  - reflexivity.
  - right. split; [reflexivity | vm_compute; discriminate].
  - exists r. split; [exact Hr|].
    apply Hsaved; [reflexivity | reflexivity | discriminate].
Defined.

(** X27: sessions are told apart by the resolved key alone: an
    [after_compaction] and a [before_agent_start] whose events resolve to
    the same key, one of them without [sessionKey] and the other naming
    [default] for instance, are the same session, and the start is
    served. *)
Theorem same_key_same_session (config : CompactionGuardConfig) (now : Z)
    (compacted started : SessionEvent) (w : World) :
  injectRecovery config = true ->
  session_of compacted = session_of started ->
  fst (before_agent_start config now started
         (snd (after_compaction compacted w)))
  = Returned (Some (recovery_payload (disk w))).
Proof.
  intros Hinject Hkey.
  rewrite before_agent_start_proceeds.
  - now rewrite Hinject.
  - left. simpl. rewrite Hkey. apply elem_of_union_l.
    now apply elem_of_singleton.
Qed.

Lemma same_key_same_session_witness :
  fst (before_agent_start default_config 5000 (session "default")
         (snd (after_compaction keyless (initial_world empty_disk))))
  = Returned (Some (recovery_payload empty_disk)).
Proof.
  apply (same_key_same_session default_config 5000 keyless (session "default")
           (initial_world empty_disk)); reflexivity.
Defined.

(** ** Path resolution *)

(** X28: an empty [contextFile] counts as none: in both cases the path is
    [memory/compaction-context.md] joined under the workspace, which is
    [OPENCLAW_WORKSPACE] whenever that variable is set (to the empty string
    too) and [.openclaw/workspace] under the home directory otherwise. *)
Theorem unset_contextFile_default
    (path_join : list string -> string) (path_isAbsolute : string -> bool)
    (homedir : string) (OPENCLAW_WORKSPACE : option string)
    (config : CompactionGuardConfig) :
  contextFile config = None \/ contextFile config = Some "" ->
  resolveContextPath path_join path_isAbsolute homedir OPENCLAW_WORKSPACE config
  = path_join
      [ match OPENCLAW_WORKSPACE with
        | Some workspace => workspace
        | None => path_join [homedir; ".openclaw/workspace"]
        end;
        "memory"; "compaction-context.md" ].
Proof.
  intros [H|H]; unfold resolveContextPath; rewrite H;
    destruct OPENCLAW_WORKSPACE; reflexivity.
Qed.

Lemma unset_contextFile_default_witness :
  resolveContextPath (String.concat "/") (String.prefix "/") "/home/u"
    (Some "")
    {| contextFile := Some ""; recoveryPrompt := None;
       minMessagesForSnapshot := None |}
  = String.concat "/" [""; "memory"; "compaction-context.md"].
Proof.
  apply (unset_contextFile_default (String.concat "/") (String.prefix "/")
           "/home/u" (Some "")
           {| contextFile := Some ""; recoveryPrompt := None;
              minMessagesForSnapshot := None |}).
  right. reflexivity.
Defined.

Lemma prefix_tilde (rest : string) :
  String.prefix "~/" ("~/" +:+ rest) = true.
Proof. destruct rest; reflexivity. Qed.

(** X29: a [contextFile] written [~/rest] resolves to [rest] joined under
    the home directory, whatever the workspace variable holds and whatever
    [path.isAbsolute] would say of it. *)
Theorem home_relative_contextFile
    (path_join : list string -> string) (path_isAbsolute : string -> bool)
    (homedir : string) (OPENCLAW_WORKSPACE : option string)
    (rest : string) (recovery : option bool) (minimum : option Z) :
  resolveContextPath path_join path_isAbsolute homedir OPENCLAW_WORKSPACE
    {| contextFile := Some ("~/" +:+ rest); recoveryPrompt := recovery;
       minMessagesForSnapshot := minimum |}
  = path_join [homedir; rest].
Proof.
  unfold resolveContextPath. cbn [contextFile].
  rewrite prefix_tilde. reflexivity.
Qed.

(** ** The whole cycle *)

(** X30: the cycle does what the plugin is for: after a qualifying
    [before_compaction] on a writable and readable store whose rendered
    snapshot UTF-8 gives back as written (no unpaired surrogate in it),
    followed by the session's [after_compaction], the session's next
    [before_agent_start] returns a payload that opens with the static
    prompt and contains every passage of the digest and the counter line
    of that compaction. *)
Theorem recovery_carries_digest (config : CompactionGuardConfig)
    (now1 now2 : Z) (iso : string) (compaction : CompactionEvent)
    (msgs : list JsVal) (event : SessionEvent) (w : World) (p : string) :
  injectRecovery config = true ->
  qualifies config compaction = true ->
  messages compaction = JArr msgs ->
  mkdir_ok (disk w) = true -> write_ok (disk w) = true ->
  read_ok (disk w) = true ->
  survives_utf8 (disk w)
    (snapshot iso (String.concat (nl +:+ nl) (digest_parts msgs))
       (compactionCount (state w) + 1)) ->
  In p (digest_parts msgs) ->
  let w1 := snd (before_compaction config now1 iso compaction w) in
  let w2 := snd (after_compaction event w1) in
  exists r : AgentStartResult,
    fst (before_agent_start config now2 event w2) = Returned (Some r)
    /\ (exists rest, prependContext r = RECOVERY_PROMPT +:+ rest)
    /\ contains (prependContext r) p
    /\ contains (prependContext r)
         (counter_line (compactionCount (state w) + 1)).
Proof.
  intros Hinject Hq Hmsgs Hmk Hwr Hrd Hutf8 Hp w1 w2.
  assert (collect_context (slice_last 20 msgs) <> []) as Hne.
  { unfold digest_parts in Hp. apply In_slice_last in Hp.
    intros E. rewrite E in Hp. destruct Hp. }
  pose proof (before_compaction_saves config now1 iso compaction w msgs
                Hq Hmsgs Hne Hmk Hwr) as Hdisk.
  fold w1 in Hdisk.
  assert (session_of event ∈ needsRecovery w2) as Hin.
  { simpl. apply elem_of_union_l. now apply elem_of_singleton. }
  rewrite (before_agent_start_proceeds config now2 event w2 (or_introl Hin)).
  rewrite Hinject. eexists. split; [reflexivity|].
  unfold recovery_payload. cbn [prependContext].
  change (disk w2) with (disk w1). rewrite Hdisk. simpl.
  rewrite Hrd. cbn [saved_context_section].
  unfold survives_utf8 in Hutf8. rewrite Hutf8.
  rewrite snapshot_truthy.
  split; [eauto|].
  split; do 9 apply contains_append_r.
  - eapply contains_trans; [apply snapshot_contains_context|].
    now apply contains_concat.
  - apply snapshot_contains_counter.
Qed.

Lemma recovery_carries_digest_witness :
  let w1 := snd (before_compaction default_config 1000 sample_iso
                   (compaction_of 10 login_history)
                   (initial_world empty_disk)) in
  let w2 := snd (after_compaction (session "s1") w1) in
  exists r : AgentStartResult,
    fst (before_agent_start default_config 2000 (session "s1") w2)
      = Returned (Some r)
    /\ (exists rest, prependContext r = RECOVERY_PROMPT +:+ rest)
    /\ contains (prependContext r) "User: Fix the login bug"
    /\ contains (prependContext r) (counter_line (0 + 1)).
Proof.
  apply (recovery_carries_digest default_config 1000 2000 sample_iso
           (compaction_of 10 login_history) login_history (session "s1")
           (initial_world empty_disk) "User: Fix the login bug").
  - reflexivity.
  - reflexivity.
  - reflexivity.
  - reflexivity.
  - reflexivity.
  - reflexivity.
  - reflexivity.
  - vm_compute. left. reflexivity.
Defined.
